(** * The analysis page of the fake-job detector: session state machine

    A shallow embedding of [frontend/src/app/analyze/page.js].  The React
    component [AnalyzePage] keeps its session in [useState] cells and drives
    it from event handlers ([analyze], [analyzeBulk], [analyzeImage],
    [downloadBulkCsv], [verifyCompany], [submitFeedback], [reset]), interval
    callbacks, [fetch] continuations and one deferred [setTimeout] callback
    per successful submission.

    The embedding is an event system: a [World] holds the React cells, the
    browser's tables of live intervals, outstanding fetches and pending
    timeouts, and a trace of what the page did to the outside (requests,
    alerts, saved files).  Every handler and every callback of the source is
    one atomic transition, as in the browser's single event loop.

    Numbers: [scanProgress] is a JavaScript double; it is modelled by an
    exact rational ([Qc]).  The page only adds [Math.random() * k] to it and
    compares it with 95 and 100.

    Strings: a JavaScript string is modelled by the bytes of its UTF-8
    encoding, so that [trim] can be told what Unicode white space is. *)

From stdpp Require Import base option numbers strings list gmap.
From Stdlib Require Import QArith Qcanon Qround Lqa.

Local Open Scope string_scope.
Local Open Scope Qc_scope.

(** ** JavaScript values used by the page *)

Module JS.

(** A JavaScript string is held as the bytes of its UTF-8 encoding (well
    formed: no lone surrogates).  [String.prototype.trim] strips the
    ECMAScript white space and line terminators from both ends; in UTF-8
    these code points take one, two or three bytes. *)

(** TAB, LF, VT, FF, CR and SPACE. *)
Definition is_white (c : Ascii.ascii) : bool :=
  match Ascii.N_of_ascii c with
  | 9%N | 10%N | 11%N | 12%N | 13%N | 32%N => true
  | _ => false
  end.

(** U+00A0 NO-BREAK SPACE: [C2 A0]. *)
Definition is_white2 (c1 c2 : Ascii.ascii) : bool :=
  match Ascii.N_of_ascii c1, Ascii.N_of_ascii c2 with
  | 194%N, 160%N => true
  | _, _ => false
  end.

(** U+1680 [E1 9A 80]; U+2000 to U+200A [E2 80 80] to [E2 80 8A]; the line
    and paragraph separators U+2028 and U+2029 [E2 80 A8], [E2 80 A9];
    U+202F [E2 80 AF]; U+205F [E2 81 9F]; U+3000 [E3 80 80]; and the byte
    order mark U+FEFF [EF BB BF]. *)
Definition is_white3 (c1 c2 c3 : Ascii.ascii) : bool :=
  match Ascii.N_of_ascii c1, Ascii.N_of_ascii c2, Ascii.N_of_ascii c3 with
  | 225%N, 154%N, 128%N => true
  | 226%N, 128%N, n =>
      ((128 <=? n)%N && (n <=? 138)%N) || (n =? 168)%N || (n =? 169)%N
      || (n =? 175)%N
  | 226%N, 129%N, 159%N => true
  | 227%N, 128%N, 128%N => true
  | 239%N, 187%N, 191%N => true
  | _, _, _ => false
  end.

(** Drop the white-space code points at the head of [s], given how to
    recognise one of two and one of three bytes there. *)
Fixpoint strip (w2 : Ascii.ascii -> Ascii.ascii -> bool)
    (w3 : Ascii.ascii -> Ascii.ascii -> Ascii.ascii -> bool) (s : string)
  : string :=
  match s with
  | EmptyString => EmptyString
  | String c1 r1 =>
      if is_white c1 then strip w2 w3 r1
      else match r1 with
           | EmptyString => s
           | String c2 r2 =>
               if w2 c1 c2 then strip w2 w3 r2
               else match r2 with
                    | EmptyString => s
                    | String c3 r3 =>
                        if w3 c1 c2 c3 then strip w2 w3 r3 else s
                    end
           end
  end.

Definition trimStart (s : string) : string := strip is_white2 is_white3 s.

(** [trimEnd] reads the string from its end, where the bytes of a code
    point come in reverse. *)
Definition trimEnd (s : string) : string :=
  String.rev
    (strip (fun c1 c2 => is_white2 c2 c1)
           (fun c1 c2 c3 => is_white3 c3 c2 c1) (String.rev s)).

Definition trim (s : string) : string := trimEnd (trimStart s).

(** A string made of white-space code points only. *)
Inductive white_only : string -> Prop :=
| white_nil : white_only EmptyString
| white_1 c s :
    is_white c = true -> white_only s -> white_only (String c s)
| white_2 c1 c2 s :
    is_white2 c1 c2 = true -> white_only s ->
    white_only (String c1 (String c2 s))
| white_3 c1 c2 c3 s :
    is_white3 c1 c2 c3 = true -> white_only s ->
    white_only (String c1 (String c2 (String c3 s))).

(** Truthiness of the values the page tests with [!x], [x &&] or [x ? :]. *)
Definition truthy_string (s : string) : bool :=
  match s with EmptyString => false | _ => true end.

(** A string-valued field that may be [null] or missing. *)
Definition truthy_field (o : option string) : bool :=
  match o with Some s => truthy_string s | None => false end.

(** A numeric field that may be missing: [0] is falsy. *)
Definition truthy_number (o : option Z) : bool :=
  match o with Some n => negb (n =? 0)%Z | None => false end.

(** [a || b] on strings. *)
Definition or_else (o : option string) (dflt : string) : string :=
  match o with
  | Some s => if truthy_string s then s else dflt
  | None => dflt
  end.

End JS.

(** ** Data model *)

Inductive Phase := Input | Scanning | Verdict | BulkResults.
Inductive InputMode := Text | Url | Csv | Image.
Inductive Feedback := Agree | Disagree.

Global Instance Phase_eq_dec : EqDecision Phase.
Proof. solve_decision. Defined.
Global Instance InputMode_eq_dec : EqDecision InputMode.
Proof. solve_decision. Defined.
Global Instance Feedback_eq_dec : EqDecision Feedback.
Proof. solve_decision. Defined.

(** A [File] picked in a file input or dropped on the page. *)
Record File := { file_name : string; file_content : string }.

Record RiskFactor := { phrase : string; category : string; weight : Qc }.

(** The JSON body of a successful single-item prediction. *)
Record VerdictResult := {
  prediction_id : option Z;
  prediction : string;
  confidence : Z;
  risk_factors : list RiskFactor;
  scraped_title : option string;
  scraped_company : option string;
  analyzed_at : option string
}.

Record CompanyVerification := {
  verified : bool;
  match_type : option string;
  cv_confidence : option Z
}.

Record BulkRow := {
  row_number : Z; preview : string; row_prediction : string; row_confidence : Z
}.

Record BulkReport := {
  total_analyzed : Z; total_real : Z; total_fake : Z;
  fraud_rate : Qc; results : list BulkRow
}.

Record HistoryItem := {
  h_id : Z; h_job_text : string; h_prediction : string; h_confidence : Z
}.

(** The [useState] cells of [AnalyzePage] that its handlers read or write. *)
Record State := {
  inputMode : InputMode;
  jobText : string;
  urlInput : string;
  loading : bool;
  phase : Phase;
  result : option VerdictResult;
  scanProgress : Qc;
  myHistory : list HistoryItem;
  feedbackGiven : option Feedback;
  companyVerify : option CompanyVerification;
  companyLoading : bool;
  csvFile : option File;
  bulkResults : option BulkReport;
  imageFile : option File;
  imagePreview : option string
}.

(** The initial values given to [useState]. *)
Definition initialState : State := {|
  inputMode := Text; jobText := ""; urlInput := ""; loading := false;
  phase := Input; result := None; scanProgress := 0; myHistory := [];
  feedbackGiven := None; companyVerify := None; companyLoading := false;
  csvFile := None; bulkResults := None; imageFile := None;
  imagePreview := None
|}.

(** ** State setters

    One function per [useState] setter of the component, with the setter's
    name; a handler is a composition of them, written in source order with
    [|>]. *)

Notation "x |> f" := (f x) (at level 45, left associativity, only parsing).

Definition setInputMode (v : InputMode) (s : State) : State :=
  {| inputMode := v; jobText := jobText s; urlInput := urlInput s;
     loading := loading s; phase := phase s; result := result s;
     scanProgress := scanProgress s; myHistory := myHistory s;
     feedbackGiven := feedbackGiven s; companyVerify := companyVerify s;
     companyLoading := companyLoading s; csvFile := csvFile s;
     bulkResults := bulkResults s; imageFile := imageFile s;
     imagePreview := imagePreview s |}.

Definition setJobText (v : string) (s : State) : State :=
  {| inputMode := inputMode s; jobText := v; urlInput := urlInput s;
     loading := loading s; phase := phase s; result := result s;
     scanProgress := scanProgress s; myHistory := myHistory s;
     feedbackGiven := feedbackGiven s; companyVerify := companyVerify s;
     companyLoading := companyLoading s; csvFile := csvFile s;
     bulkResults := bulkResults s; imageFile := imageFile s;
     imagePreview := imagePreview s |}.

Definition setUrlInput (v : string) (s : State) : State :=
  {| inputMode := inputMode s; jobText := jobText s; urlInput := v;
     loading := loading s; phase := phase s; result := result s;
     scanProgress := scanProgress s; myHistory := myHistory s;
     feedbackGiven := feedbackGiven s; companyVerify := companyVerify s;
     companyLoading := companyLoading s; csvFile := csvFile s;
     bulkResults := bulkResults s; imageFile := imageFile s;
     imagePreview := imagePreview s |}.

Definition setLoading (v : bool) (s : State) : State :=
  {| inputMode := inputMode s; jobText := jobText s; urlInput := urlInput s;
     loading := v; phase := phase s; result := result s;
     scanProgress := scanProgress s; myHistory := myHistory s;
     feedbackGiven := feedbackGiven s; companyVerify := companyVerify s;
     companyLoading := companyLoading s; csvFile := csvFile s;
     bulkResults := bulkResults s; imageFile := imageFile s;
     imagePreview := imagePreview s |}.

Definition setPhase (v : Phase) (s : State) : State :=
  {| inputMode := inputMode s; jobText := jobText s; urlInput := urlInput s;
     loading := loading s; phase := v; result := result s;
     scanProgress := scanProgress s; myHistory := myHistory s;
     feedbackGiven := feedbackGiven s; companyVerify := companyVerify s;
     companyLoading := companyLoading s; csvFile := csvFile s;
     bulkResults := bulkResults s; imageFile := imageFile s;
     imagePreview := imagePreview s |}.

Definition setResult (v : option VerdictResult) (s : State) : State :=
  {| inputMode := inputMode s; jobText := jobText s; urlInput := urlInput s;
     loading := loading s; phase := phase s; result := v;
     scanProgress := scanProgress s; myHistory := myHistory s;
     feedbackGiven := feedbackGiven s; companyVerify := companyVerify s;
     companyLoading := companyLoading s; csvFile := csvFile s;
     bulkResults := bulkResults s; imageFile := imageFile s;
     imagePreview := imagePreview s |}.

Definition setScanProgress (v : Qc) (s : State) : State :=
  {| inputMode := inputMode s; jobText := jobText s; urlInput := urlInput s;
     loading := loading s; phase := phase s; result := result s;
     scanProgress := v; myHistory := myHistory s;
     feedbackGiven := feedbackGiven s; companyVerify := companyVerify s;
     companyLoading := companyLoading s; csvFile := csvFile s;
     bulkResults := bulkResults s; imageFile := imageFile s;
     imagePreview := imagePreview s |}.

Definition setMyHistory (v : list HistoryItem) (s : State) : State :=
  {| inputMode := inputMode s; jobText := jobText s; urlInput := urlInput s;
     loading := loading s; phase := phase s; result := result s;
     scanProgress := scanProgress s; myHistory := v;
     feedbackGiven := feedbackGiven s; companyVerify := companyVerify s;
     companyLoading := companyLoading s; csvFile := csvFile s;
     bulkResults := bulkResults s; imageFile := imageFile s;
     imagePreview := imagePreview s |}.

Definition setFeedbackGiven (v : option Feedback) (s : State) : State :=
  {| inputMode := inputMode s; jobText := jobText s; urlInput := urlInput s;
     loading := loading s; phase := phase s; result := result s;
     scanProgress := scanProgress s; myHistory := myHistory s;
     feedbackGiven := v; companyVerify := companyVerify s;
     companyLoading := companyLoading s; csvFile := csvFile s;
     bulkResults := bulkResults s; imageFile := imageFile s;
     imagePreview := imagePreview s |}.

Definition setCompanyVerify (v : option CompanyVerification) (s : State)
  : State :=
  {| inputMode := inputMode s; jobText := jobText s; urlInput := urlInput s;
     loading := loading s; phase := phase s; result := result s;
     scanProgress := scanProgress s; myHistory := myHistory s;
     feedbackGiven := feedbackGiven s; companyVerify := v;
     companyLoading := companyLoading s; csvFile := csvFile s;
     bulkResults := bulkResults s; imageFile := imageFile s;
     imagePreview := imagePreview s |}.

Definition setCompanyLoading (v : bool) (s : State) : State :=
  {| inputMode := inputMode s; jobText := jobText s; urlInput := urlInput s;
     loading := loading s; phase := phase s; result := result s;
     scanProgress := scanProgress s; myHistory := myHistory s;
     feedbackGiven := feedbackGiven s; companyVerify := companyVerify s;
     companyLoading := v; csvFile := csvFile s;
     bulkResults := bulkResults s; imageFile := imageFile s;
     imagePreview := imagePreview s |}.

Definition setCsvFile (v : option File) (s : State) : State :=
  {| inputMode := inputMode s; jobText := jobText s; urlInput := urlInput s;
     loading := loading s; phase := phase s; result := result s;
     scanProgress := scanProgress s; myHistory := myHistory s;
     feedbackGiven := feedbackGiven s; companyVerify := companyVerify s;
     companyLoading := companyLoading s; csvFile := v;
     bulkResults := bulkResults s; imageFile := imageFile s;
     imagePreview := imagePreview s |}.

Definition setBulkResults (v : option BulkReport) (s : State) : State :=
  {| inputMode := inputMode s; jobText := jobText s; urlInput := urlInput s;
     loading := loading s; phase := phase s; result := result s;
     scanProgress := scanProgress s; myHistory := myHistory s;
     feedbackGiven := feedbackGiven s; companyVerify := companyVerify s;
     companyLoading := companyLoading s; csvFile := csvFile s;
     bulkResults := v; imageFile := imageFile s;
     imagePreview := imagePreview s |}.

Definition setImageFile (v : option File) (s : State) : State :=
  {| inputMode := inputMode s; jobText := jobText s; urlInput := urlInput s;
     loading := loading s; phase := phase s; result := result s;
     scanProgress := scanProgress s; myHistory := myHistory s;
     feedbackGiven := feedbackGiven s; companyVerify := companyVerify s;
     companyLoading := companyLoading s; csvFile := csvFile s;
     bulkResults := bulkResults s; imageFile := v;
     imagePreview := imagePreview s |}.

Definition setImagePreview (v : option string) (s : State) : State :=
  {| inputMode := inputMode s; jobText := jobText s; urlInput := urlInput s;
     loading := loading s; phase := phase s; result := result s;
     scanProgress := scanProgress s; myHistory := myHistory s;
     feedbackGiven := feedbackGiven s; companyVerify := companyVerify s;
     companyLoading := companyLoading s; csvFile := csvFile s;
     bulkResults := bulkResults s; imageFile := imageFile s;
     imagePreview := v |}.

(** ** The page's environment *)

(** Requests to the backend, one constructor per endpoint the page calls.
    [auth] is the token put in the [Authorization] header, [None] when the
    header is left out. *)
Inductive Request :=
| PredictText (job_text : string) (auth : option string)
| PredictUrl (url : string) (auth : option string)
| PredictBulk (file : File) (auth : option string)
| PredictBulkDownload (file : File) (auth : option string)
| PredictImage (file : File) (auth : option string)
| VerifyCompany (company_name : string)
| PostFeedback (pid : option Z) (feedback : Feedback) (auth : option string)
| FlagPrediction (pid : option Z) (reason : string) (auth : option string)
| MyPredictions (auth : option string).

(** What the page does to the outside world. *)
Inductive Effect :=
| Fetch (id : nat) (req : Request)
| Alert (message : string)
| ConsoleError (label : string) (message : string)
| SaveAs (download : string) (blob : string).

(** The code that waits for the reply of an outstanding [fetch]. *)
Inductive Kont :=
| KAnalyze | KBulk | KImage
| KDownload | KVerify | KFeedback (feedback : Feedback) | KHistory | KFlag.

(** What a settled [fetch] hands to that code.  A successful response
    carries the payload of its endpoint, or [null]: the page hands on
    whatever [res.json()] gives, and [ReplyNull] is a response with [res.ok]
    true whose JSON body is [null].  [ReplyAck] is a response with [res.ok]
    true whose body is not read.  [ReplyError] is a response with [res.ok]
    false whose JSON body has [detail] (or lacks it); [ReplyThrow] is a
    rejected [fetch], an unreadable body, or a body of a failed response on
    which reading [detail] throws; [ReplyBlob] is a response read with
    [res.blob()], whatever its status. *)
Inductive Reply :=
| ReplyVerdict (data : VerdictResult)
| ReplyBulk (data : BulkReport)
| ReplyCompany (data : CompanyVerification)
| ReplyHistory (predictions : option (list HistoryItem))
| ReplyNull
| ReplyAck
| ReplyBlob (ok : bool) (blob : string)
| ReplyError (detail : option string)
| ReplyThrow (message : string).

(** A live [setInterval]: its period in ms and the factor of
    [Math.random()] in its callback. *)
Record Interval := { period : nat; magnitude : Z }.

(** The callback of a pending [setTimeout], with the [data] it closes
    over; the last three close over [null]. *)
Inductive Deferred :=
| DAnalyze (data : VerdictResult)
| DBulk (data : BulkReport)
| DImage (data : VerdictResult)
| DAnalyzeNull
| DBulkNull
| DImageNull.

(** The page together with the part of the browser it talks to: the React
    cells, the token handed out by [useAuth], the live intervals, the
    requests waiting for a reply, the pending timeouts, the next free
    identifier, and the trace of effects (newest first). *)
Record World := {
  ui : State;
  token : option string;
  intervals : gmap nat Interval;
  fetches : gmap nat Kont;
  timeouts : gmap nat (nat * Deferred);
  fresh : nat;
  trace : list Effect
}.

Definition upd (f : State -> State) (w : World) : World :=
  {| ui := f (ui w); token := token w; intervals := intervals w;
     fetches := fetches w; timeouts := timeouts w; fresh := fresh w;
     trace := trace w |}.

Definition emit (e : Effect) (w : World) : World :=
  {| ui := ui w; token := token w; intervals := intervals w;
     fetches := fetches w; timeouts := timeouts w; fresh := fresh w;
     trace := e :: trace w |}.

Definition setInterval (id : nat) (iv : Interval) (w : World) : World :=
  {| ui := ui w; token := token w; intervals := <[id:=iv]> (intervals w);
     fetches := fetches w; timeouts := timeouts w; fresh := fresh w;
     trace := trace w |}.

Definition clearInterval (id : nat) (w : World) : World :=
  {| ui := ui w; token := token w; intervals := delete id (intervals w);
     fetches := fetches w; timeouts := timeouts w; fresh := fresh w;
     trace := trace w |}.

Definition setTimeout (id : nat) (d : Deferred) (delay : nat) (w : World)
  : World :=
  {| ui := ui w; token := token w; intervals := intervals w;
     fetches := fetches w; timeouts := <[id:=(delay, d)]> (timeouts w);
     fresh := fresh w; trace := trace w |}.

Definition expire (id : nat) (w : World) : World :=
  {| ui := ui w; token := token w; intervals := intervals w;
     fetches := fetches w; timeouts := delete id (timeouts w);
     fresh := fresh w; trace := trace w |}.

(** [fetch(...)] followed by [await]: the request leaves, and the rest of
    the async function is parked under [id]. *)
Definition fetch (id : nat) (k : Kont) (req : Request) (w : World) : World :=
  {| ui := ui w; token := token w; intervals := intervals w;
     fetches := <[id:=k]> (fetches w); timeouts := timeouts w;
     fresh := fresh w; trace := Fetch id req :: trace w |}.

Definition settle (id : nat) (w : World) : World :=
  {| ui := ui w; token := token w; intervals := intervals w;
     fetches := delete id (fetches w); timeouts := timeouts w;
     fresh := fresh w; trace := trace w |}.

(** Every call of an async handler gets an identifier of its own; its
    interval, its request and its timeout are filed under it. *)
Definition bump (w : World) : World :=
  {| ui := ui w; token := token w; intervals := intervals w;
     fetches := fetches w; timeouts := timeouts w; fresh := S (fresh w);
     trace := trace w |}.

(** [if (token) headers['Authorization'] = ...] *)
Definition optionalAuth (w : World) : option string :=
  if JS.truthy_field (token w) then token w else None.

(** ** Handlers of [AnalyzePage]

    Each definition is the synchronous prefix of the source function of the
    same name, up to its first [await]; the rest of the function is the
    matching case of [onReply] and [onFire] below. *)

Definition fetchMyHistory (w : World) : World :=
  w |> fetch (fresh w) KHistory (MyPredictions (token w)) |> bump.

Definition verifyCompany (name : string) (w : World) : World :=
  if negb (JS.truthy_string name) then w else
  w |> upd (setCompanyLoading true)
    |> fetch (fresh w) KVerify (VerifyCompany name)
    |> bump.

Definition analyze (w : World) : World :=
  let isUrl := bool_decide (inputMode (ui w) = Url) in
  let input := JS.trim (if isUrl then urlInput (ui w) else jobText (ui w)) in
  if negb (JS.truthy_string input) then w else
  w |> upd (setLoading true) |> upd (setPhase Scanning)
    |> upd (setScanProgress 0)
    |> upd (setResult None) |> upd (setFeedbackGiven None)
    |> upd (setCompanyVerify None)
    |> setInterval (fresh w) {| period := 150; magnitude := 12 |}
    |> fetch (fresh w) KAnalyze
         (if isUrl then PredictUrl input (optionalAuth w)
          else PredictText input (optionalAuth w))
    |> bump.

Definition analyzeBulk (w : World) : World :=
  match csvFile (ui w) with
  | Some file =>
      if negb (JS.truthy_field (token w)) then w else
      w |> upd (setLoading true) |> upd (setPhase Scanning)
        |> upd (setScanProgress 0)
        |> upd (setBulkResults None)
        |> setInterval (fresh w) {| period := 200; magnitude := 8 |}
        |> fetch (fresh w) KBulk (PredictBulk file (token w))
        |> bump
  | None => w
  end.

Definition analyzeImage (w : World) : World :=
  match imageFile (ui w) with
  | Some file =>
      w |> upd (setLoading true) |> upd (setPhase Scanning)
        |> upd (setScanProgress 0)
        |> upd (setResult None) |> upd (setFeedbackGiven None)
        |> upd (setCompanyVerify None)
        |> setInterval (fresh w) {| period := 180; magnitude := 10 |}
        |> fetch (fresh w) KImage (PredictImage file (optionalAuth w))
        |> bump
  | None => w
  end.

Definition downloadBulkCsv (w : World) : World :=
  match csvFile (ui w) with
  | Some file =>
      if negb (JS.truthy_field (token w)) then w else
      w |> fetch (fresh w) KDownload (PredictBulkDownload file (token w))
        |> bump
  | None => w
  end.

(** [result?.prediction_id] *)
Definition result_prediction_id (s : State) : option Z :=
  match result s with Some r => prediction_id r | None => None end.

Definition submitFeedback (feedback : Feedback) (w : World) : World :=
  if negb (JS.truthy_number (result_prediction_id (ui w)))
     || negb (JS.truthy_field (token w))
  then w else
  w |> fetch (fresh w) (KFeedback feedback)
         (PostFeedback (result_prediction_id (ui w)) feedback (token w))
    |> bump.

Definition reset (w : World) : World :=
  w |> upd (setPhase Input) |> upd (setResult None)
    |> upd (setBulkResults None)
    |> upd (setJobText "") |> upd (setUrlInput "") |> upd (setCsvFile None)
    |> upd (setImageFile None) |> upd (setImagePreview None)
    |> upd (setScanProgress 0) |> upd (setFeedbackGiven None)
    |> upd (setCompanyVerify None).

(** The inline [onClick] of the FLAG FOR REVIEW button. *)
Definition flagForReview (w : World) : World :=
  w |> fetch (fresh w) KFlag
         (FlagPrediction (result_prediction_id (ui w))
            "Flagged by user review" (token w))
    |> bump.

(** ** Callbacks *)

(** The updater passed to [setScanProgress] by an interval callback, with
    [r] the value drawn by [Math.random()]; the flag says whether the
    callback cleared its own interval. *)
Definition tickUpdate (k : Z) (r p : Qc) : bool * Qc :=
  if decide (Qc_of_Z 95 <= p) then (true, Qc_of_Z 95)
  else (false, p + r * Qc_of_Z k).

Definition onTick (id : nat) (r : Qc) (w : World) : option World :=
  match intervals w !! id with
  | Some iv =>
      if decide (0 <= r /\ r < 1) then
        let '(stop, p) := tickUpdate (magnitude iv) r (scanProgress (ui w)) in
        Some ((if stop then clearInterval id w else w)
                |> upd (setScanProgress p))
      else None
  | None => None
  end.

(** The [try] branch after a successful response. *)
Definition scanDone (id : nat) (d : Deferred) (delay : nat) (w : World)
  : World :=
  w |> clearInterval id |> upd (setScanProgress (Qc_of_Z 100))
    |> setTimeout id d delay.

(** The [catch] branch of the three submission handlers. *)
Definition scanFailed (id : nat) (message : string) (w : World) : World :=
  w |> clearInterval id |> upd (setLoading false) |> upd (setPhase Input)
    |> emit (Alert message).

Definition onReply (id : nat) (r : Reply) (w : World) : option World :=
  match fetches w !! id with
  | None => None
  | Some k =>
      let w := settle id w in
      match k, r with
      | KAnalyze, ReplyVerdict data => Some (scanDone id (DAnalyze data) 600 w)
      | KAnalyze, ReplyNull => Some (scanDone id DAnalyzeNull 600 w)
      | KAnalyze, ReplyError detail =>
          Some (scanFailed id (JS.or_else detail "Analysis failed") w)
      | KAnalyze, ReplyThrow message => Some (scanFailed id message w)
      | KBulk, ReplyBulk data => Some (scanDone id (DBulk data) 400 w)
      | KBulk, ReplyNull => Some (scanDone id DBulkNull 400 w)
      | KBulk, ReplyError detail =>
          Some (scanFailed id (JS.or_else detail "Bulk analysis failed") w)
      | KBulk, ReplyThrow message => Some (scanFailed id message w)
      | KImage, ReplyVerdict data => Some (scanDone id (DImage data) 600 w)
      | KImage, ReplyNull => Some (scanDone id DImageNull 600 w)
      | KImage, ReplyError detail =>
          Some (scanFailed id (JS.or_else detail "Image analysis failed") w)
      | KImage, ReplyThrow message => Some (scanFailed id message w)
      | KDownload, ReplyBlob _ blob =>
          Some (emit (SaveAs "bulk_results.csv" blob) w)
      | KDownload, ReplyThrow _ => Some (emit (Alert "Download failed") w)
      | KVerify, ReplyCompany data =>
          Some (w |> upd (setCompanyVerify (Some data))
                  |> upd (setCompanyLoading false))
      | KVerify, ReplyNull =>
          Some (w |> upd (setCompanyVerify None)
                  |> upd (setCompanyLoading false))
      | KVerify, ReplyError _ => Some (upd (setCompanyLoading false) w)
      | KVerify, ReplyThrow message =>
          Some (w |> emit (ConsoleError "Company verification failed:" message)
                  |> upd (setCompanyLoading false))
      | KFeedback feedback, ReplyAck =>
          Some (upd (setFeedbackGiven (Some feedback)) w)
      | KFeedback _, ReplyError _ => Some w
      | KFeedback _, ReplyThrow message =>
          Some (emit (ConsoleError "Feedback failed:" message) w)
      | KHistory, ReplyHistory predictions =>
          Some (upd (setMyHistory (default [] predictions)) w)
      | KHistory, ReplyNull =>
          Some (emit (ConsoleError "Failed to fetch history:"
                        "TypeError: data is null") w)
      | KHistory, ReplyError _ => Some w
      | KHistory, ReplyThrow message =>
          Some (emit (ConsoleError "Failed to fetch history:" message) w)
      | KFlag, (ReplyAck | ReplyError _) =>
          Some (emit (Alert "Post flagged for review.") w)
      | KFlag, ReplyThrow _ => Some (emit (Alert "Failed to flag.") w)
      | _, _ => None
      end
  end.

(** [if (data.scraped_company) verifyCompany(data.scraped_company)] *)
Definition autoVerify (data : VerdictResult) (w : World) : World :=
  match scraped_company data with
  | Some name => if JS.truthy_string name then verifyCompany name w else w
  | None => w
  end.

Definition refreshHistory (w : World) : World :=
  if JS.truthy_field (token w) then fetchMyHistory w else w.

(** The callbacks handed to [setTimeout] after a successful response.
    With [data] null the callback of [analyze] stops at
    [data.scraped_company], after its state updates and the history
    request; the other two callbacks do not read [data]. *)
Definition onFire (id : nat) (w : World) : option World :=
  match timeouts w !! id with
  | None => None
  | Some (_, d) =>
      let w := expire id w in
      match d with
      | DAnalyze data =>
          Some (w |> upd (setResult (Some data)) |> upd (setPhase Verdict)
                  |> upd (setLoading false)
                  |> refreshHistory |> autoVerify data)
      | DBulk data =>
          Some (w |> upd (setBulkResults (Some data))
                  |> upd (setPhase BulkResults) |> upd (setLoading false))
      | DImage data =>
          Some (w |> upd (setResult (Some data)) |> upd (setPhase Verdict)
                  |> upd (setLoading false)
                  |> refreshHistory)
      | DAnalyzeNull | DImageNull =>
          Some (w |> upd (setResult None) |> upd (setPhase Verdict)
                  |> upd (setLoading false)
                  |> refreshHistory)
      | DBulkNull =>
          Some (w |> upd (setBulkResults None)
                  |> upd (setPhase BulkResults) |> upd (setLoading false))
      end
  end.

(** ** The rendered page

    What the user can do is what the JSX renders for the current state: a
    view per phase, and inside it controls that are mounted or disabled
    depending on the state.  The two sample buttons of the text tab call
    [setJobText] like typing does and are covered by [TypeJobText]; the
    history toggle only changes presentation and is left out.
    [PreviewLoaded] is the [onload] of the [FileReader] started by choosing
    an image; it may fire at any later time. *)

Inductive UserAction :=
| ClickTab (mode : InputMode)
| TypeJobText (value : string)
| ClickRunAnalysis
| TypeUrl (value : string)
| PressEnterInUrl
| ClickScanUrl
| DropCsv (file : option File)
| ChooseCsv (file : option File)
| ClickAnalyzeBulk
| ChooseImage (file : option File)
| PreviewLoaded (dataUrl : string)
| ClickAnalyzeImage
| PressEnterInCompany (value : string)
| ClickVerify (value : string)
| ClickFeedback (feedback : Feedback)
| ClickFlag
| ClickReset
| ClickDownload.

(** [phase === 'input' && (...)] *)
Definition inputView (s : State) : bool := bool_decide (phase s = Input).

(** [phase === 'verdict' && result && (...)] *)
Definition verdictView (s : State) : bool :=
  bool_decide (phase s = Verdict) && bool_decide (is_Some (result s)).

(** [phase === 'bulk-results' && bulkResults && (...)] *)
Definition bulkView (s : State) : bool :=
  bool_decide (phase s = BulkResults) && bool_decide (is_Some (bulkResults s)).

Definition result_scraped_company (s : State) : option string :=
  match result s with Some r => scraped_company r | None => None end.

Definition result_is_fake (s : State) : bool :=
  match result s with
  | Some r => bool_decide (prediction r = "Fake")
  | None => false
  end.

(** Is the control of action [a] mounted and enabled?  The scanning view
    has no control at all. *)
Definition available (w : World) (a : UserAction) : bool :=
  let s := ui w in
  match a with
  | ClickTab _ => inputView s
  | TypeJobText _ => inputView s && bool_decide (inputMode s = Text)
  | ClickRunAnalysis =>
      inputView s && bool_decide (inputMode s = Text)
      && negb (negb (JS.truthy_string (JS.trim (jobText s))) || loading s)
  | TypeUrl _ | PressEnterInUrl =>
      inputView s && bool_decide (inputMode s = Url)
  | ClickScanUrl =>
      inputView s && bool_decide (inputMode s = Url)
      && negb (negb (JS.truthy_string (JS.trim (urlInput s))) || loading s)
  | DropCsv _ | ChooseCsv _ => inputView s && bool_decide (inputMode s = Csv)
  | ClickAnalyzeBulk =>
      inputView s && bool_decide (inputMode s = Csv)
      && bool_decide (is_Some (csvFile s))
      && negb (loading s || negb (JS.truthy_field (token w)))
  | ChooseImage _ => inputView s && bool_decide (inputMode s = Image)
  | PreviewLoaded _ => true
  | ClickAnalyzeImage =>
      inputView s && bool_decide (inputMode s = Image)
      && bool_decide (is_Some (imageFile s)) && negb (loading s)
  | PressEnterInCompany _ =>
      verdictView s && negb (JS.truthy_field (result_scraped_company s))
  | ClickVerify _ =>
      verdictView s && negb (JS.truthy_field (result_scraped_company s))
      && negb (companyLoading s)
  | ClickFeedback _ =>
      verdictView s && JS.truthy_field (token w)
      && bool_decide (feedbackGiven s = None)
  | ClickFlag => verdictView s && result_is_fake s && JS.truthy_field (token w)
  | ClickReset => verdictView s || bulkView s
  | ClickDownload => bulkView s
  end.

(** [f.name.endsWith('.csv')] *)
Definition endsWith (suffix s : string) : bool :=
  String.prefix (String.rev suffix) (String.rev s).

(** The handler bound to the control. *)
Definition handle (a : UserAction) (w : World) : World :=
  match a with
  | ClickTab mode => upd (setInputMode mode) w
  | TypeJobText value => upd (setJobText value) w
  | TypeUrl value => upd (setUrlInput value) w
  | ClickRunAnalysis | PressEnterInUrl | ClickScanUrl => analyze w
  | DropCsv (Some f) =>
      if endsWith ".csv" (file_name f) then upd (setCsvFile (Some f)) w else w
  | ChooseCsv (Some f) => upd (setCsvFile (Some f)) w
  | DropCsv None | ChooseCsv None => w
  | ClickAnalyzeBulk => analyzeBulk w
  | ChooseImage (Some f) => upd (setImageFile (Some f)) w
  | ChooseImage None => w
  | PreviewLoaded dataUrl => upd (setImagePreview (Some dataUrl)) w
  | ClickAnalyzeImage => analyzeImage w
  | PressEnterInCompany value => verifyCompany value w
  | ClickVerify value =>
      if JS.truthy_string value then verifyCompany value w else w
  | ClickFeedback feedback => submitFeedback feedback w
  | ClickFlag => flagForReview w
  | ClickReset => reset w
  | ClickDownload => downloadBulkCsv w
  end.

(** A user action on the page: nothing happens unless its control is there
    and enabled. *)
Definition dispatch (a : UserAction) (w : World) : World :=
  if available w a then handle a w else w.

(** The actions that start a submission. *)
Definition is_submission (a : UserAction) : bool :=
  match a with
  | ClickRunAnalysis | PressEnterInUrl | ClickScanUrl
  | ClickAnalyzeBulk | ClickAnalyzeImage => true
  | _ => false
  end.

(** ** The event loop *)

Inductive Event :=
| User (a : UserAction)
| Tick (id : nat) (random : Qc)
| Arrive (id : nat) (r : Reply)
| Fire (id : nat).

Definition step (w : World) (e : Event) : option World :=
  match e with
  | User a => Some (dispatch a w)
  | Tick id random => onTick id random w
  | Arrive id r => onReply id r w
  | Fire id => onFire id w
  end.

Fixpoint run (w : World) (es : list Event) : option World :=
  match es with
  | [] => Some w
  | e :: es' =>
      match step w e with
      | Some w' => run w' es'
      | None => None
      end
  end.

(** The page as first rendered for a visitor whose stored token is [tok];
    [useEffect(() => { if (token) fetchMyHistory(); }, [token])] runs once. *)
Definition mount (tok : option string) : World :=
  refreshHistory
    {| ui := initialState; token := tok; intervals := ∅; fetches := ∅;
       timeouts := ∅; fresh := 0; trace := [] |}.

Definition reachable (tok : option string) (w : World) : Prop :=
  exists es, run (mount tok) es = Some w.

(** The company names that the requests among some effects ask the backend
    to verify. *)
Definition verifications (es : list Effect) : list string :=
  omap (fun e => match e with
                 | Fetch _ (VerifyCompany name) => Some name
                 | _ => None
                 end) es.

(** What the user has entered for the four input modes. *)
Definition pendingInput (s : State)
  : string * string * option File * option File :=
  (jobText s, urlInput s, csvFile s, imageFile s).

(** What the bar and the label of the scanning view show:
    [Math.min(scanProgress, 100)]. *)
Definition shownProgress (s : State) : Qc :=
  if decide (scanProgress s <= Qc_of_Z 100) then scanProgress s
  else Qc_of_Z 100.

(** ** Single flight: the invariant of the event loop

    A submission is [Kont] [KAnalyze], [KBulk] or [KImage].  At any time
    the page is in one of three situations: idle (no submission request
    outstanding and no deferred transition), waiting for the reply of one
    submission, or showing 100 % while the one deferred transition is
    pending. *)

Definition is_scan (k : Kont) : bool :=
  match k with KAnalyze | KBulk | KImage => true | _ => false end.

Definition is_failure (r : Reply) : bool :=
  match r with ReplyError _ | ReplyThrow _ => true | _ => false end.

Definition no_scan_fetch (w : World) : Prop :=
  forall id k, fetches w !! id = Some k -> is_scan k = false.

Inductive Inv (w : World) : Prop :=
| InvIdle :
    phase (ui w) <> Scanning ->
    loading (ui w) = false ->
    (is_Some (result (ui w)) -> phase (ui w) = Verdict) ->
    (is_Some (bulkResults (ui w)) -> phase (ui w) = BulkResults) ->
    no_scan_fetch w ->
    timeouts w = ∅ ->
    Inv w
| InvWaiting (id : nat) (k : Kont) :
    phase (ui w) = Scanning ->
    loading (ui w) = true ->
    result (ui w) = None ->
    bulkResults (ui w) = None ->
    fetches w !! id = Some k ->
    is_scan k = true ->
    (forall id' k', fetches w !! id' = Some k' -> is_scan k' = true ->
                    id' = id) ->
    timeouts w = ∅ ->
    Inv w
| InvFinishing (id : nat) (t : nat * Deferred) :
    phase (ui w) = Scanning ->
    loading (ui w) = true ->
    result (ui w) = None ->
    bulkResults (ui w) = None ->
    no_scan_fetch w ->
    timeouts w = {[ id := t ]} ->
    Inv w.

(** ** Feedback requests *)

(** The feedback requests among some effects, newest first: the prediction
    they are about and the opinion they carry. *)
Definition feedbacks (es : list Effect) : list (option Z * Feedback) :=
  omap (fun e => match e with
                 | Fetch _ (PostFeedback pid feedback _) => Some (pid, feedback)
                 | _ => None
                 end) es.

(** ** Successful responses with a null body *)





(** ** Sample sessions

    Concrete runs of the page, used to exercise the theorems below. *)

Module Scenario.

Definition half : Qc := Q2Qc (1 # 2).
Definition quarter : Qc := Q2Qc (1 # 4).
Definition three_quarters : Qc := Q2Qc (3 # 4).

Definition jwt : option string := Some "jwt".

Definition screenshot : File :=
  {| file_name := "posting.png"; file_content := "PNG" |}.

Definition batch : File :=
  {| file_name := "jobs.csv"; file_content := "job_text" |}.

(** A verdict for a scraped posting that names its company. *)
Definition acme : VerdictResult :=
  {| prediction_id := Some 7%Z; prediction := "Fake"; confidence := 91;
     risk_factors := []; scraped_title := Some "Data entry clerk";
     scraped_company := Some "Acme"; analyzed_at := None |}.

(** A verdict for pasted text. *)
Definition plain : VerdictResult :=
  {| prediction_id := Some 8%Z; prediction := "Real"; confidence := 77;
     risk_factors := []; scraped_title := None;
     scraped_company := None; analyzed_at := None |}.

(** The world after the events [es], from a fresh page. *)
Definition after (tok : option string) (es : list Event) : World :=
  default (mount tok) (run (mount tok) es).

Definition submitText : list Event :=
  [User (TypeJobText "Earn money fast"); User ClickRunAnalysis].

Definition submitImage : list Event :=
  [User (ClickTab Image); User (ChooseImage (Some screenshot));
   User ClickAnalyzeImage].

(** Scanning a pasted text, one tick of the simulator done. *)
Definition scanning : World := after None (submitText ++ [Tick 0 half]).

(** Seventeen ticks while the request is still outstanding. *)
Definition overshoot : list Event :=
  submitText ++ repeat (Tick 0 half) 15
    ++ [Tick 0 quarter; Tick 0 three_quarters].

(** The backend rejects the request after one tick. *)
Definition rejected : list Event :=
  submitText ++ [Tick 0 half; Arrive 0 (ReplyError (Some "Text too short"))].

(** A signed-in visitor gets a verdict and agrees with it. *)
Definition agreed : World :=
  after jwt (submitText ++ [Arrive 1 (ReplyVerdict plain); Fire 1;
                            User (ClickFeedback Agree); Arrive 3 ReplyAck]).

(** A signed-in visitor clicks "agree" and then "disagree" before the
    first request is acknowledged; then the first acknowledgement comes. *)
Definition changedMind : list Event :=
  submitText ++ [Arrive 1 (ReplyVerdict plain); Fire 1;
                 User (ClickFeedback Agree); User (ClickFeedback Disagree);
                 Arrive 3 ReplyAck].


(** A screenshot whose verdict names a company. *)
Definition imageVerdict : World :=
  after None (submitImage ++ [Arrive 0 (ReplyVerdict acme); Fire 0]).

(** A scraped posting whose verdict names a company. *)
Definition textVerdict : World :=
  after None (submitText ++ [Arrive 0 (ReplyVerdict acme); Fire 0]).

(** A signed-in visitor with a CSV file picked, and a download started
    from the bulk report. *)
Definition bulkReport : BulkReport :=
  {| total_analyzed := 2; total_real := 1; total_fake := 1;
     fraud_rate := Qc_of_Z 50; results := [] |}.

Definition downloading : World :=
  after jwt [User (ClickTab Csv); User (ChooseCsv (Some batch));
             User ClickAnalyzeBulk; Arrive 1 (ReplyBulk bulkReport);
             Fire 1; User ClickDownload].

End Scenario.

(** ** Further notions for the analysis page *)


(** The string [analyze] reads: [isUrl ? urlInput : jobText]. *)
Definition selectedInput (s : State) : string :=
  if bool_decide (inputMode s = Url) then urlInput s else jobText s.

(** What is still on the page of an outstanding submission: the tab it was
    started from and the input it was started with. *)
Definition submitted (w : World) (k : Kont) : Prop :=
  match k with
  | KAnalyze =>
      (inputMode (ui w) = Text \/ inputMode (ui w) = Url)
      /\ JS.truthy_string (JS.trim (selectedInput (ui w))) = true
  | KBulk =>
      inputMode (ui w) = Csv /\ is_Some (csvFile (ui w))
      /\ JS.truthy_field (token w) = true
  | KImage => inputMode (ui w) = Image /\ is_Some (imageFile (ui w))
  | _ => True
  end.

(** The progress simulator in a reachable state: a live interval belongs to
    an outstanding submission and has one of the page's three factors,
    progress stays within bounds, and it is 100 while the deferred
    transition is pending. *)
Record Sim (w : World) : Prop := {
  sim_timer : forall id iv,
    intervals w !! id = Some iv ->
    (exists k, fetches w !! id = Some k /\ is_scan k = true)
    /\ (0 <= magnitude iv <= 12)%Z;
  sim_low : 0 <= scanProgress (ui w);
  sim_high : scanProgress (ui w) < Qc_of_Z 107;
  sim_done : timeouts w <> ∅ -> scanProgress (ui w) = Qc_of_Z 100;
  sim_input : forall id k, fetches w !! id = Some k -> submitted w k
}.

(** The control that repeats a submission of kind [k] from tab [mode]. *)
Definition retryAction (mode : InputMode) (k : Kont) : UserAction :=
  match k with
  | KBulk => ClickAnalyzeBulk
  | KImage => ClickAnalyzeImage
  | _ => if bool_decide (mode = Url) then ClickScanUrl else ClickRunAnalysis
  end.

(** Does a request carry the token its endpoint needs?  The prediction
    endpoints for text, URL and image take the header or do without; bulk
    analysis, bulk download, feedback, flagging and history need it. *)
Definition authorized (req : Request) : bool :=
  match req with
  | PredictText _ auth | PredictUrl _ auth | PredictImage _ auth =>
      match auth with Some t => JS.truthy_string t | None => true end
  | PredictBulk _ auth | PredictBulkDownload _ auth
  | PostFeedback _ _ auth | FlagPrediction _ _ auth | MyPredictions auth =>
      JS.truthy_field auth
  | VerifyCompany _ => true
  end.

Definition effect_authorized (e : Effect) : Prop :=
  match e with Fetch _ req => authorized req = true | _ => True end.

(** The messages alerted among some effects. *)
Definition alerts (es : list Effect) : list string :=
  omap (fun e => match e with Alert message => Some message | _ => None end)
    es.

(** Action [a] is enabled in [v] and starts a new scan from progress 0 with
    one new request. *)
Definition restarted (a : UserAction) (v : World) : Prop :=
  available v a = true
  /\ phase (ui (dispatch a v)) = Scanning
  /\ scanProgress (ui (dispatch a v)) = 0
  /\ exists req, trace (dispatch a v) = Fetch (fresh v) req :: trace v.

(** More sample sessions. *)
Module Sample.

(** The reply has arrived; the view change is still pending. *)
Definition finishing : World :=
  Scenario.after None
    (Scenario.submitText
       ++ [Tick 0 Scenario.half; Arrive 0 (ReplyVerdict Scenario.plain)]).

(** A signed-in visitor looking at a verdict, no feedback given yet. *)
Definition verdictShown : World :=
  Scenario.after Scenario.jwt
    (Scenario.submitText ++ [Arrive 1 (ReplyVerdict Scenario.plain); Fire 1]).

(** The same visitor after asking for a company check by hand. *)
Definition verifying : World :=
  Scenario.after Scenario.jwt
    (Scenario.submitText ++ [Arrive 1 (ReplyVerdict Scenario.plain); Fire 1;
                             User (ClickVerify "Acme")]).

(** Two risk factors as the backend orders them, heaviest first. *)
Definition strong : RiskFactor :=
  {| phrase := "processing fee"; category := "Financial Red Flag";
     weight := Qc_of_Z 4 |}.

Definition weak : RiskFactor :=
  {| phrase := "act now"; category := "Urgency Pressure";
     weight := Qc_of_Z 1 |}.

(** A factor the model gave no weight. *)
Definition weightless : RiskFactor :=
  {| phrase := "apply today"; category := "Urgency Pressure"; weight := 0 |}.

(** U+00A0, a no-break space, as pasted from a web page. *)
Definition nbsp : string :=
  String (Ascii.ascii_of_nat 194) (String (Ascii.ascii_of_nat 160) "").

(** The text area holds a no-break space and a blank. *)
Definition blankText : World :=
  Scenario.after None [User (TypeJobText (nbsp +:+ " "))].

End Sample.

(** ** Derived display values *)

Module JSMath.

(** [Math.max(a, b)] *)
Definition max (a b : Qc) : Qc := if decide (a <= b) then b else a.

(** [Math.round(x)]: the nearest integer, halves going up. *)
Definition round (x : Qc) : Z := Qfloor (this x + (1 # 2))%Q.

End JSMath.

(** The verdict view of [AnalyzePage]. *)
Module VerdictView.

(** [result.risk_factors[0]?.weight || 1] *)
Definition maxW (rfs : list RiskFactor) : Qc :=
  match rfs with
  | first :: _ => if decide (weight first = 0) then 1 else weight first
  | [] => 1
  end.

(** [Math.max(10, (rf.weight / maxW) * 100)], the width of a risk bar in
    percent. *)
Definition barW (rfs : list RiskFactor) (rf : RiskFactor) : Qc :=
  JSMath.max (Qc_of_Z 10) (weight rf / maxW rfs * Qc_of_Z 100).

(** The [left] offset of the confidence marker, in percent:
    [50 + confidence / 2] for a fake, [50 - confidence / 2] otherwise. *)
Definition markerLeft (r : VerdictResult) : Qc :=
  if bool_decide (prediction r = "Fake")
  then Qc_of_Z 50 + Qc_of_Z (confidence r) / Qc_of_Z 2
  else Qc_of_Z 50 - Qc_of_Z (confidence r) / Qc_of_Z 2.

End VerdictView.

(** [formatLocalTime] of the analysis page.  Parsing and formatting the date
    ([new Date(s).toLocaleString('en-IN', ...)]) is the browser's; it is a
    parameter here. *)
Module LocalTime.

(** [s.includes(needle)] *)
Fixpoint includes (needle s : string) : bool :=
  String.prefix needle s
  || match s with
     | EmptyString => false
     | String _ rest => includes needle rest
     end.

(** The string handed to [new Date]. *)
Definition dateStr (isoString : string) : string :=
  if endsWith "Z" isoString || includes "+" isoString
  then isoString else isoString +:+ "Z".

Definition formatLocalTime (toLocaleString : string -> string)
    (isoString : option string) : string :=
  match isoString with
  | Some s =>
      if negb (JS.truthy_string s) then "—" else toLocaleString (dateStr s)
  | None => "—"
  end.

End LocalTime.

(** ** The dashboard page ([app/dashboard/page.js]) *)

Module Dashboard.

Record WeekStat := { week : string; total : Z; fake : Z }.

Record Stats := {
  total_analyses : Z;
  stats_total_fake : Z;
  stats_total_real : Z;
  stats_fraud_rate : Qc;
  avg_confidence : Qc;
  feedback_given : Z;
  feedback_agree : Z;
  weekly_trend : list WeekStat
}.

Record Trending := { total_fake_detected : Z; period_days : Z }.

(** The three [useState] cells of [DashboardPage]. *)
Record State := {
  stats : option Stats;
  trending : option Trending;
  loading : bool
}.

Definition initialState : State :=
  {| stats := None; trending := None; loading := true |}.

Definition setStats (v : option Stats) (s : State) : State :=
  {| stats := v; trending := trending s; loading := loading s |}.
Definition setTrending (v : option Trending) (s : State) : State :=
  {| stats := stats s; trending := v; loading := loading s |}.
Definition setLoading (v : bool) (s : State) : State :=
  {| stats := stats s; trending := trending s; loading := v |}.

(** How a [fetch] ends: it throws, or it yields a response with its [ok]
    flag and its body, [None] when [res.json()] cannot read it. *)
Inductive Settled (A : Type) :=
| Threw
| Response (ok : bool) (json : option A).
Arguments Threw {A}.
Arguments Response {A} ok json.

(** [loadData], run to its end against the two settled requests.  The
    second component tells whether the [catch] logged an error. *)
Definition loadData (statsRes : Settled Stats) (trendRes : Settled Trending)
    (s : State) : State * bool :=
  let s0 := setLoading true s in
  let '(s1, failed) :=
    match statsRes, trendRes with
    | Response ok1 json1, Response ok2 json2 =>
        (* Promise.all resolved *)
        let afterStats :=
          if ok1 then
            match json1 with
            | Some v => Some (setStats (Some v) s0)
            | None => None
            end
          else Some s0 in
        match afterStats with
        | Some s1 =>
            if ok2 then
              match json2 with
              | Some v => (setTrending (Some v) s1, false)
              | None => (s1, true)
              end
            else (s1, false)
        | None => (s0, true)
        end
    | _, _ => (s0, true)
    end in
  (setLoading false s1, failed).

(** The AGREEMENT RATE card: a percentage, or the dash when no feedback was
    given. *)
Definition agreementRate (s : Stats) : option Z :=
  if (0 <? feedback_given s)%Z
  then Some (JSMath.round (Qc_of_Z (feedback_agree s)
                           / Qc_of_Z (feedback_given s) * Qc_of_Z 100))
  else None.

(** [Math.max(...stats.weekly_trend.map(x => x.total), 1)] *)
Definition maxVal (weeks : list WeekStat) : Qc :=
  foldr (fun w acc => JSMath.max (Qc_of_Z (total w)) acc) 1 weeks.

(** The height of a week's bar, and of its fraudulent part. *)
Definition barH (weeks : list WeekStat) (w : WeekStat) : Qc :=
  JSMath.max (Qc_of_Z 8) (Qc_of_Z (total w) / maxVal weeks * Qc_of_Z 100).

Definition fakeH (weeks : list WeekStat) (w : WeekStat) : Qc :=
  if (0 <? total w)%Z
  then Qc_of_Z (fake w) / Qc_of_Z (total w) * barH weeks w
  else 0.

End Dashboard.

(** ** The theme provider ([context/ThemeContext.js]) *)

Module Theme.

(** The [theme] cell, the [jobcheck-theme] entry of [localStorage] and the
    [data-theme] attribute of the document element. *)
Record World := {
  theme : string;
  stored : option string;
  dataTheme : option string
}.

(** The second effect: it runs after every render in which [theme]
    changed. *)
Definition persist (w : World) : World :=
  {| theme := theme w; stored := Some (theme w);
     dataTheme := Some (theme w) |}.

Definition setTheme (t : string) (w : World) : World :=
  {| theme := t; stored := stored w; dataTheme := dataTheme w |}.

(** Mounting the provider over a storage holding [saved]: the first render
    has ['dark']; the first effect reads the storage, the second one writes
    ['dark']; a non-empty saved theme is then set, and the second effect
    runs again. *)
Definition mountProvider (saved : option string) (attr : option string)
  : World :=
  let w0 := persist {| theme := "dark"; stored := saved; dataTheme := attr |} in
  match saved with
  | Some t => if JS.truthy_string t then persist (setTheme t w0) else w0
  | None => w0
  end.

(** [toggle], followed by the effect. *)
Definition toggle (w : World) : World :=
  persist (setTheme (if bool_decide (theme w = "dark") then "light"
                     else "dark") w).

End Theme.

(** ** The navigation bar ([components/Navbar.js]) *)

Module Navbar.

Record User := { username : string; role : option string }.

Record NavLink := { href : string; label : string }.

Definition is_admin (user : option User) : bool :=
  match user with
  | Some u => bool_decide (role u = Some "admin")
  | None => false
  end.

(** The links rendered for [user]. *)
Definition links (user : option User) : list NavLink :=
  [ {| href := "/"; label := "HOME" |};
    {| href := "/analyze"; label := "ANALYZE" |} ]
  ++ match user with
     | Some _ => [ {| href := "/dashboard"; label := "DASHBOARD" |} ]
     | None => []
     end
  ++ (if is_admin user then [ {| href := "/admin"; label := "ADMIN" |} ]
      else []).

Definition isActive (pathname path : string) : bool :=
  bool_decide (pathname = path).

(** [setScrolled(window.scrollY > 20)] *)
Definition scrolled (scrollY : Z) : bool := (20 <? scrollY)%Z.

End Navbar.

(** * Proofs *)

(** Exposing the guards of a handler; the fields of the world it builds are
    then read off by [cbn], one projection at a time. *)
Ltac unfold_page :=
  unfold mount, autoVerify, refreshHistory, verifyCompany, analyze,
    analyzeBulk, analyzeImage, downloadBulkCsv, submitFeedback,
    no_scan_fetch in *;
  cbn in *.


Section InvariantLemmas.

Implicit Types (w : World) (s : State).

Lemma Inv_result w :
  Inv w -> is_Some (result (ui w)) -> phase (ui w) = Verdict.
Proof.
  destruct 1 as [_ _ H _ _ _ | id k Hp _ Hr _ _ _ _ _ | id t Hp _ Hr _ _ _];
    [exact H | |]; rewrite Hr; intros [? ?]; discriminate.
Qed.

Lemma Inv_bulk w :
  Inv w -> is_Some (bulkResults (ui w)) -> phase (ui w) = BulkResults.
Proof.
  destruct 1 as [_ _ _ H _ _ | id k Hp _ _ Hb _ _ _ _ | id t Hp _ _ Hb _ _];
    [exact H | |]; rewrite Hb; intros [? ?]; discriminate.
Qed.

Lemma Inv_loading w :
  Inv w -> loading (ui w) = true <-> phase (ui w) = Scanning.
Proof.
  destruct 1 as [Hp Hl _ _ _ _ | id k Hp Hl _ _ _ _ _ _ | id t Hp Hl _ _ _ _];
    rewrite Hl; split; try done.
Qed.

(** The scanning view has no control: the only user-level event that can
    still happen is the image preview finishing to load. *)
Lemma scanning_controls w a :
  phase (ui w) = Scanning ->
  available w a = true -> exists dataUrl, a = PreviewLoaded dataUrl.
Proof.
  intros Hp. unfold available, inputView, verdictView, bulkView.
  rewrite Hp. destruct a; cbn; try discriminate. eauto.
Qed.

End InvariantLemmas.

Section Preservation.

Implicit Types (w : World) (s : State).

Lemma Inv_mount tok : Inv (mount tok).
Proof.
  unfold_page.
  destruct (JS.truthy_field tok); apply InvIdle; unfold_page; try done;
    try (intros [? ?]; discriminate).
  all: try (intros id k H;
            apply lookup_insert_Some in H as [[_ <-] | [_ H]]; [done |];
            rewrite lookup_empty in H; discriminate).
Qed.

(** An event that leaves the phase, the loading flag, both results, the
    timeouts and the outstanding submissions alone keeps the invariant. *)
Lemma Inv_frame w w' :
  Inv w ->
  phase (ui w') = phase (ui w) ->
  loading (ui w') = loading (ui w) ->
  result (ui w') = result (ui w) ->
  bulkResults (ui w') = bulkResults (ui w) ->
  timeouts w' = timeouts w ->
  (forall id k, is_scan k = true ->
                fetches w' !! id = Some k <-> fetches w !! id = Some k) ->
  Inv w'.
Proof.
  intros HI Hp Hl Hr Hb Ht Hf.
  assert (Hns : no_scan_fetch w -> no_scan_fetch w').
  { intros H id k Hk. destruct (is_scan k) eqn:E; [| done].
    apply Hf in Hk; [| done]. apply H in Hk. congruence. }
  destruct HI as [? ? ? ? ? ? | id k ? ? ? ? Hk Hs Hu ? | id t ? ? ? ? ? ?].
  - apply InvIdle; rewrite ?Hp, ?Hl, ?Hr, ?Hb, ?Ht; auto.
  - apply (InvWaiting w' id k); rewrite ?Hp, ?Hl, ?Hr, ?Hb, ?Ht; auto.
    + by apply Hf.
    + intros id' k' Hk' Hs'. apply Hf in Hk'; eauto.
  - apply (InvFinishing w' id t); rewrite ?Hp, ?Hl, ?Hr, ?Hb, ?Ht; auto.
Qed.

(** Outside the scanning phase it is enough that no submission request
    appears. *)
Lemma Inv_frame_idle w w' :
  Inv w ->
  phase (ui w) <> Scanning ->
  phase (ui w') = phase (ui w) ->
  loading (ui w') = loading (ui w) ->
  result (ui w') = result (ui w) ->
  bulkResults (ui w') = bulkResults (ui w) ->
  timeouts w' = timeouts w ->
  (forall id k, fetches w' !! id = Some k -> is_scan k = true ->
                fetches w !! id = Some k) ->
  Inv w'.
Proof.
  intros HI Hn Hp Hl Hr Hb Ht Hf.
  destruct HI as [? ? ? ? Hns ? | | ]; [| done | done].
  apply InvIdle; rewrite ?Hp, ?Hl, ?Hr, ?Hb, ?Ht; auto.
  intros id k Hk. destruct (is_scan k) eqn:E; [| done].
  apply Hf in Hk; [| done]. apply Hns in Hk. congruence.
Qed.

End Preservation.

Section Steps.

Implicit Types (w : World) (s : State).

Lemma Inv_idle w :
  Inv w -> phase (ui w) <> Scanning ->
  loading (ui w) = false /\ no_scan_fetch w /\ timeouts w = ∅.
Proof. destruct 1; done. Qed.

(** A request whose continuation is not a submission does not show up
    among the outstanding submissions. *)
Lemma insert_side_request (m : gmap nat Kont) i k id k' :
  is_scan k = false ->
  <[i:=k]> m !! id = Some k' -> is_scan k' = true -> m !! id = Some k'.
Proof.
  intros Hk H Hs. apply lookup_insert_Some in H as [[_ <-] | [_ H]];
    [congruence | done].
Qed.

Lemma delete_side_request (m : gmap nat Kont) i k id k' :
  m !! i = Some k -> is_scan k = false -> is_scan k' = true ->
  delete i m !! id = Some k' <-> m !! id = Some k'.
Proof.
  intros Hi Hk Hs. rewrite lookup_delete_Some. split; [tauto |].
  intros H. split; [| done]. intros ->. congruence.
Qed.

Ltac side_request :=
  let H := fresh in
  intros ? ? H ?;
  first [ exact H
        | eapply insert_side_request; [| exact H | assumption]; done ].

Ltac frame_idle w :=
  eapply (Inv_frame_idle w);
  [ eassumption | assumption | reflexivity .. | side_request ].

Lemma Inv_start w id iv k req :
  Inv w -> phase (ui w) = Input ->
  is_scan k = true ->
  forall f : State -> State,
    (forall s, phase (f s) = Scanning /\ loading (f s) = true) ->
    (forall s, result (f s) = None \/ result (f s) = result s) ->
    (forall s, bulkResults (f s) = None \/ bulkResults (f s) = bulkResults s) ->
    Inv (w |> upd f |> setInterval id iv |> fetch id k req |> bump).
Proof.
  intros HI Hp Hk f Hf Hr Hb.
  assert (Hn : phase (ui w) <> Scanning) by (rewrite Hp; discriminate).
  destruct (Inv_idle w HI Hn) as (Hl & Hns & Ht).
  apply (InvWaiting _ id k); unfold_page; try apply Hf; try done.
  - destruct (Hr (ui w)) as [-> | ->]; [done |].
    destruct (result (ui w)) as [v |] eqn:E; [| done].
    assert (Hx : is_Some (result (ui w))) by (rewrite E; eauto).
    apply (Inv_result w HI) in Hx. congruence.
  - destruct (Hb (ui w)) as [-> | ->]; [done |].
    destruct (bulkResults (ui w)) as [v |] eqn:E; [| done].
    assert (Hx : is_Some (bulkResults (ui w))) by (rewrite E; eauto).
    apply (Inv_bulk w HI) in Hx. congruence.
  - apply lookup_insert_eq.
  - intros id' k' H Hs. apply lookup_insert_Some in H as [[? _] | [_ H]];
      [done |]. apply Hns in H. congruence.
Qed.

Lemma inputView_phase w a :
  is_submission a = true -> available w a = true -> phase (ui w) = Input.
Proof.
  unfold available, inputView. destruct a; try discriminate; intros _ H;
    repeat (apply andb_prop in H as [H ?]);
    by apply bool_decide_eq_true in H.
Qed.

Lemma Inv_analyze w : Inv w -> phase (ui w) = Input -> Inv (analyze w).
Proof.
  intros HI Hp. unfold analyze.
  destruct (negb _); [done |].
  refine (Inv_start w _ _ KAnalyze _ HI Hp eq_refl
            (fun s => s |> setLoading true |> setPhase Scanning
                        |> setScanProgress 0 |> setResult None
                        |> setFeedbackGiven None |> setCompanyVerify None)
            _ _ _); intros s; unfold_page; auto.
Qed.

Lemma Inv_analyzeBulk w :
  Inv w -> phase (ui w) = Input -> Inv (analyzeBulk w).
Proof.
  intros HI Hp. unfold analyzeBulk.
  destruct (csvFile (ui w)); [| done]. destruct (negb _); [done |].
  refine (Inv_start w _ _ KBulk _ HI Hp eq_refl
            (fun s => s |> setLoading true |> setPhase Scanning
                        |> setScanProgress 0 |> setBulkResults None)
            _ _ _); intros s; unfold_page; auto.
Qed.

Lemma Inv_analyzeImage w :
  Inv w -> phase (ui w) = Input -> Inv (analyzeImage w).
Proof.
  intros HI Hp. unfold analyzeImage.
  destruct (imageFile (ui w)); [| done].
  refine (Inv_start w _ _ KImage _ HI Hp eq_refl
            (fun s => s |> setLoading true |> setPhase Scanning
                        |> setScanProgress 0 |> setResult None
                        |> setFeedbackGiven None |> setCompanyVerify None)
            _ _ _); intros s; unfold_page; auto.
Qed.

Lemma Inv_reset w : Inv w -> phase (ui w) <> Scanning -> Inv (reset w).
Proof.
  intros HI Hn. destruct (Inv_idle w HI Hn) as (Hl & Hns & Ht).
  apply InvIdle; unfold_page; try done;
    try (intros [? ?]; discriminate).
Qed.

Lemma Inv_user w a : Inv w -> Inv (dispatch a w).
Proof.
  intros HI. unfold dispatch. destruct (available w a) eqn:Ha; [| done].
  destruct (decide (phase (ui w) = Scanning)) as [Hs | Hs].
  { destruct (scanning_controls w a Hs Ha) as [u ->].
    by apply (Inv_frame w). }
  pose proof (fun Hsub => inputView_phase w a Hsub Ha) as Hin.
  destruct a; cbn [handle];
    try (apply Inv_analyze; [done | by apply Hin]);
    try (apply Inv_analyzeBulk; [done | by apply Hin]);
    try (apply Inv_analyzeImage; [done | by apply Hin]);
    try (by apply Inv_reset);
    clear Hin;
    unfold_page; repeat case_match; try done; frame_idle w.
Qed.

Lemma Inv_tick w id r w' : Inv w -> onTick id r w = Some w' -> Inv w'.
Proof.
  intros HI. unfold onTick, tickUpdate.
  repeat case_match; intros; simplify_eq; by apply (Inv_frame w).
Qed.

Lemma Inv_waiting w id k :
  Inv w -> fetches w !! id = Some k -> is_scan k = true ->
  phase (ui w) = Scanning /\ result (ui w) = None
  /\ bulkResults (ui w) = None /\ timeouts w = ∅
  /\ no_scan_fetch (settle id w).
Proof.
  intros [_ _ _ _ Hns _ | id0 k0 ? ? ? ? _ _ Hu ? | id0 t _ _ _ _ Hns _] Hk Hs;
    try (apply Hns in Hk; congruence).
  repeat split; try done.
  intros id' k' Hd. cbn in Hd. apply lookup_delete_Some in Hd as [Hne Hd].
  destruct (is_scan k') eqn:E; [| done].
  pose proof (Hu _ _ Hd E). pose proof (Hu _ _ Hk Hs). congruence.
Qed.

Lemma Inv_scanDone w id k d delay :
  Inv w -> fetches w !! id = Some k -> is_scan k = true ->
  Inv (scanDone id d delay (settle id w)).
Proof.
  intros HI Hk Hs.
  destruct (Inv_waiting w id k HI Hk Hs) as (Hp & Hr & Hb & Ht & Hns).
  apply Inv_loading in HI as Hl. apply Hl in Hp as Hl'.
  apply (InvFinishing _ id (delay, d)); unfold_page; try done.
  by rewrite Ht, insert_empty.
Qed.

Lemma Inv_scanFailed w id k message :
  Inv w -> fetches w !! id = Some k -> is_scan k = true ->
  Inv (scanFailed id message (settle id w)).
Proof.
  intros HI Hk Hs.
  destruct (Inv_waiting w id k HI Hk Hs) as (Hp & Hr & Hb & Ht & Hns).
  apply InvIdle; cbn; rewrite ?Hr, ?Hb; try done;
    try (intros [? ?]; discriminate).
Qed.

Lemma Inv_reply w id r w' : Inv w -> onReply id r w = Some w' -> Inv w'.
Proof.
  intros HI. unfold onReply.
  destruct (fetches w !! id) as [k |] eqn:Hk; [| done].
  destruct k, r; intros; simplify_eq;
    try (by eapply Inv_scanDone); try (by eapply Inv_scanFailed);
    (apply (Inv_frame w); [done | reflexivity .. |]);
    intros; unfold_page; by eapply delete_side_request.
Qed.

Lemma Inv_refreshHistory w :
  Inv w -> phase (ui w) <> Scanning -> Inv (refreshHistory w).
Proof.
  intros HI Hn. unfold_page. case_match; [| done]. frame_idle w.
Qed.

Lemma Inv_autoVerify w data :
  Inv w -> phase (ui w) <> Scanning -> Inv (autoVerify data w).
Proof.
  intros HI Hn. unfold_page. repeat case_match; try done; frame_idle w.
Qed.

Lemma Inv_fire w id w' : Inv w -> onFire id w = Some w' -> Inv w'.
Proof.
  intros HI. unfold onFire.
  destruct (timeouts w !! id) as [[delay d] |] eqn:Hd; [| done].
  destruct HI as [_ _ _ _ _ Ht | ? ? _ _ _ _ _ _ _ Ht | id0 t _ _ Hr Hb Hns Ht];
    try (rewrite Ht, lookup_empty in Hd; discriminate).
  rewrite Ht in Hd. apply lookup_singleton_Some in Hd as [-> ->].
  assert (Hex : timeouts (expire id w) = ∅).
  { unfold_page. rewrite Ht. apply delete_singleton_eq. }
  destruct d; intros; simplify_eq;
    repeat first [ apply Inv_autoVerify;
                   [| unfold_page; case_match; unfold_page; discriminate]
                 | apply Inv_refreshHistory; [| unfold_page; discriminate] ];
    (apply InvIdle; unfold_page; rewrite ?Hr, ?Hb; try done;
     intros [? ?]; discriminate).
Qed.

Lemma Inv_step w e w' : Inv w -> step w e = Some w' -> Inv w'.
Proof.
  destruct e; cbn; intros HI H.
  - injection H as <-. by apply Inv_user.
  - by eapply Inv_tick.
  - by eapply Inv_reply.
  - by eapply Inv_fire.
Qed.

Lemma Inv_run es : forall w w', Inv w -> run w es = Some w' -> Inv w'.
Proof.
  induction es as [| e es IH]; cbn; intros w w' HI H.
  - by injection H as <-.
  - destruct (step w e) as [w1 |] eqn:E; [| done].
    eapply IH; [| exact H]. by eapply Inv_step.
Qed.

Lemma reachable_Inv tok w : reachable tok w -> Inv w.
Proof. intros [es H]. eapply Inv_run; [apply Inv_mount | exact H]. Qed.

End Steps.

(** ** Facts about sample sessions *)

Lemma run_after tok es :
  is_Some (run (mount tok) es) ->
  run (mount tok) es = Some (Scenario.after tok es).
Proof. unfold Scenario.after. by intros [w ->]. Qed.

Lemma after_reachable tok es :
  is_Some (run (mount tok) es) -> reachable tok (Scenario.after tok es).
Proof. intros H. exists es. by apply run_after. Qed.

Ltac sample_reachable :=
  apply after_reachable; vm_compute; eexists; reflexivity.

(** ** Single-flight guard (C1) *)

(** C1, as stated, fails on the handler: [analyze] has no guard of its own.
    Called in a reachable scanning state with the loading flag set, it
    issues a second request, restarts progress at 0 and leaves the first
    interval running next to a new one. *)
Lemma analyze_unguarded_while_scanning :
  reachable None Scenario.scanning
  /\ phase (ui Scenario.scanning) = Scanning
  /\ loading (ui Scenario.scanning) = true
  /\ trace (analyze Scenario.scanning)
     = Fetch 1 (PredictText "Earn money fast" None) :: trace Scenario.scanning
  /\ scanProgress (ui (analyze Scenario.scanning))
     <> scanProgress (ui Scenario.scanning)
  /\ analyze Scenario.scanning <> Scenario.scanning.
Proof.
  split_and!; try (vm_compute; reflexivity).
  - sample_reachable.
  - intros H. apply (f_equal Qcanon.this) in H. vm_compute in H. discriminate.
  - intros H. apply (f_equal (fun w => length (trace w))) in H.
    vm_compute in H. discriminate.
Qed.

(** C1 (amended): the guard is in the rendered page.  In every reachable
    state in which the phase is Scanning or the loading flag is set, no
    control that starts a submission is mounted and enabled, so such a user
    action issues no request and changes nothing. *)
Theorem submission_controls_off_while_scanning tok w a :
  reachable tok w ->
  phase (ui w) = Scanning \/ loading (ui w) = true ->
  is_submission a = true ->
  dispatch a w = w.
Proof.
  intros Hr Hs Ha.
  assert (Hp : phase (ui w) = Scanning).
  { destruct Hs as [Hs | Hs]; [done |].
    by apply (Inv_loading w (reachable_Inv tok w Hr)). }
  unfold dispatch. destruct (available w a) eqn:Hav; [| done].
  destruct (scanning_controls w a Hp Hav) as [u ->]. discriminate.
Qed.

Lemma submission_controls_off_while_scanning_witness :
  reachable None Scenario.scanning
  /\ dispatch ClickRunAnalysis Scenario.scanning = Scenario.scanning.
Proof.
  assert (Hr : reachable None Scenario.scanning) by sample_reachable.
  split; [exact Hr |].
  apply (submission_controls_off_while_scanning None Scenario.scanning
           ClickRunAnalysis Hr);
    [left; vm_compute; reflexivity | reflexivity].
Defined.

(** ** Progress simulator (C2, C3) *)

(** One tick never moves progress backwards below the cap and, once at or
    above 95, the next tick pins it to 95 and stops the interval. *)
Lemma tickUpdate_capped k r p :
  Qc_of_Z 95 <= p -> tickUpdate k r p = (true, Qc_of_Z 95).
Proof. intros H. unfold tickUpdate. by destruct (decide _). Qed.

Lemma tickUpdate_below k r p :
  p < Qc_of_Z 95 -> tickUpdate k r p = (false, p + r * Qc_of_Z k).
Proof.
  intros H. unfold tickUpdate. destruct (decide _) as [H' |]; [| done].
  by apply Qcle_not_lt in H'.
Qed.

(** While progress is below the cap a tick adds a draw in [0, k): progress
    does not go back and ends below [95 + k], which is above 100 for each of
    the page's three factors. *)
Lemma tickUpdate_range k r p :
  (0 <= k)%Z -> 0 <= r -> r < 1 -> p < Qc_of_Z 95 ->
  p <= (tickUpdate k r p).2 /\ (tickUpdate k r p).2 < Qc_of_Z 95 + Qc_of_Z k.
Proof.
  intros Hk Hr0 Hr1 Hp. rewrite tickUpdate_below by done. cbn.
  assert (Hk' : 0 <= Qc_of_Z k) by (by apply (Z2Qc_inj_le 0 k)).
  split.
  - rewrite <- (Qcplus_0_r p) at 1. apply Qcplus_le_mono_l.
    rewrite <- (Qcmult_0_l (Qc_of_Z k)).
    by apply Qcmult_le_mono_nonneg_r.
  - apply Qclt_le_trans with (Qc_of_Z 95 + r * Qc_of_Z k).
    + by apply Qcplus_lt_mono_r.
    + apply Qcplus_le_mono_l. rewrite <- (Qcmult_1_l (Qc_of_Z k)) at 2.
      apply Qcmult_le_mono_nonneg_r; [done |]. by apply Qclt_le_weak.
Qed.

(** C2 (code at the failing input): the cap is tested on the value before
    the increment is added.  Fifteen draws of 0.5, one of 0.25 and one of
    0.75 take [scanProgress] through 90 and 93 to 102 while the request is
    still outstanding, and the scanning view shows 100 %. *)
Theorem tick_overshoots_cap :
  exists w,
    run (mount None) Scenario.overshoot = Some w
    /\ phase (ui w) = Scanning
    /\ fetches w !! 0%nat = Some KAnalyze
    /\ timeouts w = ∅
    /\ scanProgress (ui w) = Qc_of_Z 102
    /\ shownProgress (ui w) = Qc_of_Z 100.
Proof.
  eexists. split; [vm_compute; reflexivity |].
  split_and!; try (vm_compute; reflexivity);
    apply Qc_is_canon; vm_compute; reflexivity.
Qed.

(** C3, as stated, fails: the [catch] branch does not touch [scanProgress].
    After one tick (progress 6) and a rejected request the page is back in
    the input phase with progress still 6. *)
Lemma failure_leaves_progress :
  exists w,
    run (mount None) Scenario.rejected = Some w
    /\ phase (ui w) = Input
    /\ intervals w = ∅
    /\ scanProgress (ui w) = Qc_of_Z 6
    /\ scanProgress (ui w) <> 0.
Proof.
  eexists. split; [vm_compute; reflexivity |].
  split_and!; try (vm_compute; reflexivity).
  - apply Qc_is_canon; vm_compute; reflexivity.
  - intros H. apply (f_equal Qcanon.this) in H. vm_compute in H. discriminate.
Qed.

Lemma submission_resets_progress w a :
  is_submission a = true ->
  dispatch a w = w \/ scanProgress (ui (dispatch a w)) = 0.
Proof.
  intros Ha. unfold dispatch. destruct (available w a); [| by left].
  destruct a; try discriminate; cbn [handle]; unfold_page;
    repeat case_match; auto.
Qed.

(** C3 (amended): when a submission fails, the handler cancels the
    submission's interval and clears the loading flag; [scanProgress] keeps
    its last value, and it is the next accepted submission that puts it
    back to 0. *)
Theorem failure_cancels_timer_keeps_progress w id k r :
  fetches w !! id = Some k ->
  is_scan k = true ->
  is_failure r = true ->
  exists w',
    onReply id r w = Some w'
    /\ intervals w' !! id = None
    /\ loading (ui w') = false
    /\ scanProgress (ui w') = scanProgress (ui w)
    /\ forall a, is_submission a = true ->
                 dispatch a w' <> w' ->
                 scanProgress (ui (dispatch a w')) = 0.
Proof.
  intros Hk Hs Hr. unfold onReply. rewrite Hk.
  destruct k; try discriminate; destruct r; try discriminate;
    (eexists; split; [reflexivity |]); cbn;
    (split; [apply lookup_delete_eq |]); split_and!; try reflexivity;
    intros a Ha Hne;
    match type of Hne with
    | dispatch a ?w' <> _ =>
        by destruct (submission_resets_progress w' a Ha)
    end.
Qed.

Lemma failure_cancels_timer_keeps_progress_witness :
  exists w',
    onReply 0 (ReplyError (Some "Text too short")) Scenario.scanning = Some w'
    /\ intervals w' !! 0%nat = None
    /\ loading (ui w') = false
    /\ scanProgress (ui w') = scanProgress (ui Scenario.scanning)
    /\ forall a, is_submission a = true ->
                 dispatch a w' <> w' ->
                 scanProgress (ui (dispatch a w')) = 0.
Proof.
  apply (failure_cancels_timer_keeps_progress Scenario.scanning 0 KAnalyze);
    vm_compute; reflexivity.
Defined.

(** ** Feedback (C4) *)

(** [submitFeedback] tests the prediction id and the token, not
    [feedbackGiven]: called after an accepted "agree", it sends another
    request, and the acknowledgement overwrites the recorded feedback. *)
Lemma submitFeedback_unguarded_after_feedback :
  reachable Scenario.jwt Scenario.agreed
  /\ feedbackGiven (ui Scenario.agreed) = Some Agree
  /\ trace (submitFeedback Disagree Scenario.agreed)
     = Fetch 4 (PostFeedback (Some 8%Z) Disagree Scenario.jwt)
         :: trace Scenario.agreed
  /\ (exists w', onReply 4 ReplyAck (submitFeedback Disagree Scenario.agreed)
                 = Some w'
                 /\ feedbackGiven (ui w') = Some Disagree).
Proof.
  split_and!; try (vm_compute; reflexivity).
  - sample_reachable.
  - eexists. split; vm_compute; reflexivity.
Qed.

(** The verdict view renders the thank-you badge in place of the two
    buttons once [feedbackGiven] is set. *)
Lemma feedback_buttons_gone_once_given w feedback :
  feedbackGiven (ui w) <> None ->
  dispatch (ClickFeedback feedback) w = w.
Proof.
  intros H. unfold dispatch, available.
  rewrite (bool_decide_eq_false_2 _ H). by rewrite andb_false_r.
Qed.

(** C4 fails on the running page.  The buttons are hidden only once an
    acknowledgement has set [feedbackGiven]; until then both stay mounted
    and [submitFeedback] has no guard of its own.  A signed-in visitor who
    clicks "agree" and then "disagree" on the same verdict sends two
    feedback requests for the one prediction; the first acknowledgement
    records "agree", and the second, arriving with feedback already
    recorded, overwrites it with "disagree". *)
Theorem feedback_sent_twice_for_one_verdict :
  exists w1 w2,
    run (mount Scenario.jwt) Scenario.changedMind = Some w1
    /\ step w1 (Arrive 4 ReplyAck) = Some w2
    /\ result (ui w1) = Some Scenario.plain
    /\ feedbacks (trace w1) = [(Some 8%Z, Disagree); (Some 8%Z, Agree)]
    /\ feedbackGiven (ui w1) = Some Agree
    /\ fetches w1 !! 4%nat = Some (KFeedback Disagree)
    /\ result (ui w2) = Some Scenario.plain
    /\ feedbackGiven (ui w2) = Some Disagree.
Proof.
  exists (Scenario.after Scenario.jwt Scenario.changedMind),
         (Scenario.after Scenario.jwt
            (Scenario.changedMind ++ [Arrive 4 ReplyAck])).
  split_and!; vm_compute; reflexivity.
Qed.

(** ** Company verification after a verdict (C5) *)

(** C5, as stated, fails for screenshots: the deferred callback of
    [analyzeImage] never calls [verifyCompany].  A screenshot verdict that
    names a company is shown without any verification request. *)
Lemma image_verdict_not_verified :
  reachable None Scenario.imageVerdict
  /\ phase (ui Scenario.imageVerdict) = Verdict
  /\ result_scraped_company (ui Scenario.imageVerdict) = Some "Acme"
  /\ verifications (trace Scenario.imageVerdict) = []
  /\ fetches Scenario.imageVerdict = ∅.
Proof.
  split_and!; try (vm_compute; reflexivity). sample_reachable.
Qed.

(** What [if (data.scraped_company) verifyCompany(data.scraped_company)]
    asks the backend. *)
Lemma verifications_autoVerify data w :
  verifications (trace (autoVerify data w))
  = ((if JS.truthy_field (scraped_company data)
      then [default "" (scraped_company data)] else [])
       ++ verifications (trace w))%list.
Proof.
  unfold autoVerify, verifyCompany.
  destruct (scraped_company data) as [name |]; [| done].
  cbn. by destruct (JS.truthy_string name).
Qed.

Lemma verifications_refreshHistory w :
  verifications (trace (refreshHistory w)) = verifications (trace w).
Proof. unfold refreshHistory. by destruct (JS.truthy_field (token w)). Qed.

(** C5 (amended): for a text or URL submission ([analyze]) that succeeds,
    the deferred transition asks for the verification of
    [data.scraped_company] exactly once when that field is a non-empty
    string, and the verdict view then offers no manual verification; the
    deferred transitions of screenshot and bulk submissions ask for none. *)
Theorem auto_verification_after_analyze_only w id k r w1 w2 :
  fetches w !! id = Some k ->
  is_scan k = true ->
  timeouts w !! id = None ->
  onReply id r w = Some w1 ->
  onFire id w1 = Some w2 ->
  verifications (trace w2)
  = (match k, r with
     | KAnalyze, ReplyVerdict data =>
         if JS.truthy_field (scraped_company data)
         then [default "" (scraped_company data)] else []
     | _, _ => []
     end ++ verifications (trace w))%list
  /\ (JS.truthy_field (result_scraped_company (ui w2)) = true ->
      forall value,
        dispatch (ClickVerify value) w2 = w2
        /\ dispatch (PressEnterInCompany value) w2 = w2).
Proof.
  intros Hk Hs Ht Hrep Hfire. split.
  - unfold onReply in Hrep. rewrite Hk in Hrep.
    destruct k; try discriminate; destruct r; try discriminate;
      injection Hrep as <-; unfold onFire in Hfire; cbn in Hfire;
      rewrite ?lookup_insert_eq, ?Ht in Hfire; try discriminate;
      injection Hfire as <-;
      rewrite ?verifications_autoVerify, ?verifications_refreshHistory;
      reflexivity.
  - intros Hc value. unfold dispatch, available.
    rewrite Hc. cbn. by rewrite !andb_false_r.
Qed.

Lemma auto_verification_after_analyze_only_witness :
  exists w0 w1,
    run (mount None) Scenario.submitText = Some w0
    /\ onReply 0 (ReplyVerdict Scenario.acme) w0 = Some w1
    /\ verifications (trace Scenario.textVerdict)
       = (["Acme"] ++ verifications (trace w0))%list.
Proof.
  eexists. eexists.
  split; [vm_compute; reflexivity |].
  split; [vm_compute; reflexivity |].
  refine (proj1 (auto_verification_after_analyze_only
                   _ 0 KAnalyze (ReplyVerdict Scenario.acme) _
                   Scenario.textVerdict _ _ _ _ _));
    vm_compute; reflexivity.
Defined.

(** ** Results and phases (C6) *)


Section FilledViews.

Implicit Types (w : World).









End FilledViews.



(** ** Failed submissions (C7) *)

(** Starting a submission does not touch what the user entered, and while
    the page is scanning nothing else does either: what is there when the
    failure arrives is what was submitted. *)
Lemma submission_keeps_inputs w a :
  is_submission a = true ->
  pendingInput (ui (dispatch a w)) = pendingInput (ui w).
Proof.
  intros Ha. unfold dispatch. destruct (available w a); [| done].
  destruct a; try discriminate; cbn [handle]; unfold_page;
    repeat case_match; done.
Qed.

Lemma inputs_kept_while_scanning w e w' :
  phase (ui w) = Scanning ->
  step w e = Some w' ->
  pendingInput (ui w') = pendingInput (ui w).
Proof.
  intros Hp. destruct e as [a | id r | id r | id]; cbn [step].
  - intros [= <-]. unfold dispatch.
    destruct (available w a) eqn:Ha; [| done].
    by destruct (scanning_controls w a Hp Ha) as [u ->].
  - unfold onTick, tickUpdate. repeat case_match; intros; by simplify_eq.
  - unfold onReply. destruct (fetches w !! id) as [k |]; [| done].
    destruct k, r; intros; by simplify_eq.
  - unfold onFire. destruct (timeouts w !! id) as [[delay d] |]; [| done].
    destruct d; intros; simplify_eq; unfold_page; repeat case_match; done.
Qed.

(** C7: when the reply to a submission is a failure, the page returns to
    the input phase and alerts the error's message, which is the backend's
    [detail] whenever the response carries one, and the text, the URL and
    both selected files are as they were. *)
Theorem failed_submission_back_to_input w id k r :
  fetches w !! id = Some k ->
  is_scan k = true ->
  is_failure r = true ->
  exists w' message,
    step w (Arrive id r) = Some w'
    /\ phase (ui w') = Input
    /\ trace w' = Alert message :: trace w
    /\ (forall detail, r = ReplyError (Some detail) -> detail <> "" ->
                       message = detail)
    /\ (forall thrown, r = ReplyThrow thrown -> message = thrown)
    /\ inputMode (ui w') = inputMode (ui w)
    /\ jobText (ui w') = jobText (ui w)
    /\ urlInput (ui w') = urlInput (ui w)
    /\ csvFile (ui w') = csvFile (ui w)
    /\ imageFile (ui w') = imageFile (ui w).
Proof.
  intros Hk Hs Hr. cbn [step]. unfold onReply. rewrite Hk.
  destruct k; try discriminate; destruct r; try discriminate;
    (eexists; eexists; split; [reflexivity |]);
    split_and!; try reflexivity;
    intros x Hx; try discriminate Hx; injection Hx as ->;
    try reflexivity;
    intros Hne; by destruct x.
Qed.

Lemma failed_submission_back_to_input_witness :
  exists w' message,
    step Scenario.scanning (Arrive 0 (ReplyError (Some "Text too short")))
    = Some w'
    /\ phase (ui w') = Input
    /\ trace w' = Alert message :: trace Scenario.scanning
    /\ (forall detail,
          ReplyError (Some "Text too short") = ReplyError (Some detail) ->
          detail <> "" -> message = detail)
    /\ (forall thrown,
          ReplyError (Some "Text too short") = ReplyThrow thrown ->
          message = thrown)
    /\ inputMode (ui w') = inputMode (ui Scenario.scanning)
    /\ jobText (ui w') = jobText (ui Scenario.scanning)
    /\ urlInput (ui w') = urlInput (ui Scenario.scanning)
    /\ csvFile (ui w') = csvFile (ui Scenario.scanning)
    /\ imageFile (ui w') = imageFile (ui Scenario.scanning).
Proof.
  apply (failed_submission_back_to_input Scenario.scanning 0 KAnalyze);
    vm_compute; reflexivity.
Defined.

(** ** Reset (C8) *)

(** C8: [reset], whatever the state it is called in, puts the page in the
    input phase with no result, no bulk report, progress 0, no feedback, no
    company verification, and empties the text, the URL and both file
    selections. *)
Theorem reset_clears_session w :
  phase (ui (reset w)) = Input
  /\ result (ui (reset w)) = None
  /\ bulkResults (ui (reset w)) = None
  /\ scanProgress (ui (reset w)) = 0
  /\ feedbackGiven (ui (reset w)) = None
  /\ companyVerify (ui (reset w)) = None
  /\ jobText (ui (reset w)) = ""
  /\ urlInput (ui (reset w)) = ""
  /\ csvFile (ui (reset w)) = None
  /\ imageFile (ui (reset w)) = None
  /\ imagePreview (ui (reset w)) = None.
Proof. by split_and!. Qed.

(** ** Bulk download (C9, C10) *)

(** C9: [downloadBulkCsv] and [analyzeBulk] test the same thing before
    doing anything: with a selected CSV file and a token both send their
    request for that file with that token, and without either one both
    return at once. *)
Theorem download_guard_is_bulk_guard w :
  (downloadBulkCsv w = w <-> analyzeBulk w = w)
  /\ (forall file,
        csvFile (ui w) = Some file -> JS.truthy_field (token w) = true ->
        trace (downloadBulkCsv w)
        = Fetch (fresh w) (PredictBulkDownload file (token w)) :: trace w
        /\ trace (analyzeBulk w)
           = Fetch (fresh w) (PredictBulk file (token w)) :: trace w)
  /\ (csvFile (ui w) = None \/ JS.truthy_field (token w) = false ->
      downloadBulkCsv w = w /\ analyzeBulk w = w).
Proof.
  unfold downloadBulkCsv, analyzeBulk.
  destruct (csvFile (ui w)) as [file |];
    destruct (JS.truthy_field (token w)); cbn [negb];
    split_and!; try done.
  - split; intros H; apply (f_equal (fun x => length (trace x))) in H;
      cbn in H; lia.
  - by intros f [= <-] _.
  - by intros [? | ?].
Qed.

(** C10: the continuation of [downloadBulkCsv] saves the body of whatever
    response arrives, success or not, as [bulk_results.csv]; it alerts only
    when the request threw, and then with the fixed text "Download failed". *)
Theorem download_saves_any_response w id :
  fetches w !! id = Some KDownload ->
  (forall ok blob,
      exists w', onReply id (ReplyBlob ok blob) w = Some w'
                 /\ trace w' = SaveAs "bulk_results.csv" blob :: trace w
                 /\ ui w' = ui w)
  /\ (forall r w',
        onReply id r w = Some w' ->
        (exists ok blob, r = ReplyBlob ok blob
                         /\ trace w' = SaveAs "bulk_results.csv" blob :: trace w)
        \/ (exists thrown, r = ReplyThrow thrown
                           /\ trace w' = Alert "Download failed" :: trace w)).
Proof.
  intros Hk. split.
  - intros ok blob. unfold onReply. rewrite Hk. by eexists.
  - intros r w'. unfold onReply. rewrite Hk.
    destruct r; intros [= <-]; [left | right]; eauto.
Qed.

Lemma download_saves_any_response_witness :
  fetches Scenario.downloading !! 2%nat = Some KDownload
  /\ exists w',
       onReply 2 (ReplyBlob false "{detail: Not authenticated}")
         Scenario.downloading = Some w'
       /\ trace w' = SaveAs "bulk_results.csv" "{detail: Not authenticated}"
                       :: trace Scenario.downloading
       /\ ui w' = ui Scenario.downloading.
Proof.
  assert (H : fetches Scenario.downloading !! 2%nat = Some KDownload)
    by (vm_compute; reflexivity).
  split; [exact H |].
  exact (proj1 (download_saves_any_response Scenario.downloading 2 H)
           false "{detail: Not authenticated}").
Defined.

(** * Further properties of the analysis page *)

(** ** The progress simulator along a run *)

Section Simulator.

Implicit Types (w : World).

Lemma submitted_side w k : is_scan k = false -> submitted w k.
Proof. by destruct k. Qed.

(** Without an outstanding submission there is no interval. *)
Lemma Sim_no_timer w : Sim w -> no_scan_fetch w -> intervals w = ∅.
Proof.
  intros HS Hns. apply map_empty. intros id.
  destruct (intervals w !! id) as [iv |] eqn:E; [| done].
  destruct (sim_timer w HS id iv E) as [(k & Hk & Hs) _].
  apply Hns in Hk. congruence.
Qed.

Lemma Sim_quiet w :
  no_scan_fetch w ->
  intervals w = ∅ ->
  0 <= scanProgress (ui w) ->
  scanProgress (ui w) < Qc_of_Z 107 ->
  (timeouts w <> ∅ -> scanProgress (ui w) = Qc_of_Z 100) ->
  Sim w.
Proof.
  intros Hns Hi H0 H1 Hd. split; try done.
  - intros id iv H. rewrite Hi, lookup_empty in H. discriminate.
  - intros id k Hk. apply submitted_side. by eapply Hns.
Qed.

(** Outside the scanning phase, and while the deferred transition is
    pending, no submission is outstanding. *)
Lemma Inv_no_scan w :
  Inv w -> phase (ui w) <> Scanning \/ timeouts w <> ∅ -> no_scan_fetch w.
Proof.
  intros [? ? ? ? Hns ? | id k Hp ? ? ? ? ? ? Ht | id t ? ? ? ? Hns ?] Hor;
    try done.
  by destruct Hor.
Qed.

Lemma Sim_frame w w' :
  Sim w ->
  intervals w' = intervals w ->
  timeouts w' = timeouts w ->
  token w' = token w ->
  scanProgress (ui w') = scanProgress (ui w) ->
  inputMode (ui w') = inputMode (ui w) ->
  pendingInput (ui w') = pendingInput (ui w) ->
  (forall id k, is_scan k = true ->
                fetches w' !! id = Some k <-> fetches w !! id = Some k) ->
  Sim w'.
Proof.
  intros HS Hi Ht Htok Hp Hm Hin Hf.
  injection Hin as Hj Hu Hc Him.
  split; rewrite ?Hi, ?Ht, ?Hp; try apply HS.
  - intros id iv H. destruct (sim_timer w HS id iv H) as [(k & Hk & Hs) Hr].
    split; [| done]. exists k. split; [by apply Hf | done].
  - intros id k Hk. destruct (is_scan k) eqn:Hs;
      [| by apply submitted_side].
    apply Hf in Hk; [| done]. pose proof (sim_input w HS id k Hk) as H.
    destruct k; try done; unfold submitted, selectedInput in *;
      rewrite ?Hm, ?Hj, ?Hu, ?Hc, ?Him, ?Htok; exact H.
Qed.

Ltac qc_const :=
  first [ by (vm_compute; first [reflexivity | discriminate])
        | by (intros ?; vm_compute in *; discriminate) ].

Lemma Qc_95_12 : Qc_of_Z 95 + Qc_of_Z 12 = Qc_of_Z 107.
Proof. apply Qc_is_canon. vm_compute. reflexivity. Qed.

(** One tick below the cap, for a factor of at most 12. *)
Lemma tick_step_bounds (k : Z) (r p : Qc) :
  (0 <= k <= 12)%Z -> 0 <= r -> r < 1 -> 0 <= p -> p < Qc_of_Z 95 ->
  0 <= p + r * Qc_of_Z k /\ p + r * Qc_of_Z k < Qc_of_Z 107.
Proof.
  intros [Hk0 Hk12] Hr0 Hr1 Hp0 Hp.
  destruct (tickUpdate_range k r p Hk0 Hr0 Hr1 Hp) as [Hlo Hhi].
  rewrite tickUpdate_below in Hlo, Hhi by done. cbn in Hlo, Hhi. split.
  - by apply Qcle_trans with p.
  - apply Qclt_le_trans with (Qc_of_Z 95 + Qc_of_Z k); [done |].
    rewrite <- Qc_95_12. apply Qcplus_le_mono_l.
    exact (proj1 (Z2Qc_inj_le k 12) Hk12).
Qed.

Lemma Sim_mount tok : Sim (mount tok).
Proof.
  apply Sim_quiet.
  - apply Inv_no_scan; [apply Inv_mount |]. left.
    unfold_page. by case_match.
  - unfold_page. by case_match.
  - unfold_page. case_match; qc_const.
  - unfold_page. case_match; qc_const.
  - unfold_page. by case_match.
Qed.

Lemma Sim_start w id iv k req (f : State -> State) :
  Sim w -> no_scan_fetch w -> timeouts w = ∅ ->
  (0 <= magnitude iv <= 12)%Z ->
  is_scan k = true ->
  scanProgress (f (ui w)) = 0 ->
  submitted (w |> upd f |> setInterval id iv |> fetch id k req |> bump) k ->
  Sim (w |> upd f |> setInterval id iv |> fetch id k req |> bump).
Proof.
  intros HS Hns Ht Hiv Hk Hp Hsub.
  pose proof (Sim_no_timer w HS Hns) as Hi.
  split; cbn; rewrite ?Hp; try qc_const; try done.
  - intros id' iv' H. rewrite Hi in H.
    apply lookup_insert_Some in H as [[<- <-] | [_ H]];
      [| by rewrite lookup_empty in H].
    split; [| done]. exists k. by rewrite lookup_insert_eq.
  - intros id' k' H.
    apply lookup_insert_Some in H as [[<- <-] | [_ H]]; [done |].
    apply submitted_side. by eapply Hns.
Qed.

Lemma Sim_analyze w a :
  Sim w -> no_scan_fetch w -> timeouts w = ∅ ->
  available w a = true ->
  a = ClickRunAnalysis \/ a = ClickScanUrl \/ a = PressEnterInUrl ->
  Sim (analyze w).
Proof.
  intros HS Hns Ht Ha Hact. unfold analyze.
  destruct (negb _) eqn:Hg; [done |]. apply negb_false_iff in Hg.
  refine (Sim_start w _ _ KAnalyze _
            (fun s => s |> setLoading true |> setPhase Scanning
                        |> setScanProgress 0 |> setResult None
                        |> setFeedbackGiven None |> setCompanyVerify None)
            HS Hns Ht _ eq_refl eq_refl _); [cbn; lia |].
  unfold submitted, selectedInput. cbn. split; [| exact Hg].
  unfold available, inputView in Ha.
  destruct Hact as [-> | [-> | ->]];
    repeat (apply andb_prop in Ha as [Ha ?]);
    repeat match goal with
           | H : bool_decide _ = true |- _ => apply bool_decide_eq_true in H
           end; auto.
Qed.

Lemma Sim_analyzeBulk w :
  Sim w -> no_scan_fetch w -> timeouts w = ∅ ->
  available w ClickAnalyzeBulk = true ->
  Sim (analyzeBulk w).
Proof.
  intros HS Hns Ht Ha. unfold analyzeBulk.
  destruct (csvFile (ui w)) as [file |] eqn:Hc; [| done].
  destruct (negb _) eqn:Hg; [done |]. apply negb_false_iff in Hg.
  refine (Sim_start w _ _ KBulk _
            (fun s => s |> setLoading true |> setPhase Scanning
                        |> setScanProgress 0 |> setBulkResults None)
            HS Hns Ht _ eq_refl eq_refl _); [cbn; lia |].
  unfold submitted. cbn. rewrite Hc. split_and!; [| by eexists | done].
  unfold available, inputView in Ha.
  repeat (apply andb_prop in Ha as [Ha ?]).
  repeat match goal with
         | H : bool_decide _ = true |- _ => apply bool_decide_eq_true in H
         end; auto.
Qed.

Lemma Sim_analyzeImage w :
  Sim w -> no_scan_fetch w -> timeouts w = ∅ ->
  available w ClickAnalyzeImage = true ->
  Sim (analyzeImage w).
Proof.
  intros HS Hns Ht Ha. unfold analyzeImage.
  destruct (imageFile (ui w)) as [file |] eqn:Hc; [| done].
  refine (Sim_start w _ _ KImage _
            (fun s => s |> setLoading true |> setPhase Scanning
                        |> setScanProgress 0 |> setResult None
                        |> setFeedbackGiven None |> setCompanyVerify None)
            HS Hns Ht _ eq_refl eq_refl _); [cbn; lia |].
  unfold submitted. cbn. rewrite Hc. split; [| by eexists].
  unfold available, inputView in Ha.
  repeat (apply andb_prop in Ha as [Ha ?]).
  repeat match goal with
         | H : bool_decide _ = true |- _ => apply bool_decide_eq_true in H
         end; auto.
Qed.

Lemma Sim_user w a : Inv w -> Sim w -> Sim (dispatch a w).
Proof.
  intros HI HS. pose proof (Inv_user w a HI) as HI'.
  unfold dispatch in *. destruct (available w a) eqn:Ha; [| done].
  destruct (decide (phase (ui w) = Scanning)) as [Hs | Hs].
  { destruct (scanning_controls w a Hs Ha) as [u ->].
    by apply (Sim_frame w). }
  destruct (Inv_idle w HI Hs) as (Hl & Hns & Ht).
  pose proof (Sim_no_timer w HS Hns) as Hi.
  pose proof (sim_low w HS) as H0. pose proof (sim_high w HS) as H1.
  destruct a; cbn [handle] in *;
    try (by apply (Sim_analyze w _ HS Hns Ht Ha); auto);
    try (by apply Sim_analyzeBulk); try (by apply Sim_analyzeImage);
    (apply Sim_quiet;
     [ apply (Inv_no_scan _ HI'); left | .. ]);
    unfold_page; repeat case_match; try done; try qc_const;
    rewrite ?Ht; done.
Qed.

Lemma Sim_tick w id r w' : Inv w -> Sim w -> onTick id r w = Some w' -> Sim w'.
Proof.
  intros HI HS. unfold onTick.
  destruct (intervals w !! id) as [iv |] eqn:Hiv; [| done].
  destruct (decide _) as [[Hr0 Hr1] |]; [| done].
  destruct (sim_timer w HS id iv Hiv) as [(k & Hk & Hs) Hmag].
  destruct (Inv_waiting w id k HI Hk Hs) as (_ & _ & _ & Ht & _).
  unfold tickUpdate. destruct (decide _) as [Hcap | Hcap]; intros [= <-].
  - split; cbn; try qc_const.
    + intros id' iv' H. apply lookup_delete_Some in H as [_ H].
      by apply (sim_timer w HS).
    + intros Hne. destruct (Hne Ht).
    + intros id' k' H. pose proof (sim_input w HS id' k' H) as Hsub.
      by destruct k'.
  - apply Qcnot_le_lt in Hcap.
    destruct (tick_step_bounds (magnitude iv) r (scanProgress (ui w)))
      as [Hlo Hhi]; try done; [apply HS |].
    split; cbn; try done; try (by apply HS);
      try (intros Hne; destruct (Hne Ht));
      intros id' k' H; pose proof (sim_input w HS id' k' H) as Hsub;
      by destruct k'.
Qed.

(** While a submission waits for its reply, an interval can only be its
    own. *)
Lemma Sim_own_timer w id k :
  Inv w -> Sim w -> fetches w !! id = Some k -> is_scan k = true ->
  delete id (intervals w) = ∅.
Proof.
  intros HI HS Hk Hs.
  destruct (Inv_waiting w id k HI Hk Hs) as (_ & _ & _ & _ & Hns).
  apply map_empty. intros id'.
  destruct (delete id (intervals w) !! id') as [iv |] eqn:E; [| done].
  apply lookup_delete_Some in E as [Hne E].
  destruct (sim_timer w HS id' iv E) as [(k' & Hk' & Hs') _].
  assert (Hd : fetches (settle id w) !! id' = Some k').
  { cbn. by apply lookup_delete_Some. }
  apply Hns in Hd. congruence.
Qed.

Lemma Sim_reply w id r w' :
  Inv w -> Sim w -> onReply id r w = Some w' -> Sim w'.
Proof.
  intros HI HS Hstep. pose proof (Inv_reply w id r w' HI Hstep) as HI'.
  unfold onReply in Hstep.
  destruct (fetches w !! id) as [k |] eqn:Hk; [| done].
  destruct (is_scan k) eqn:Hs.
  - destruct (Inv_waiting w id k HI Hk Hs) as (_ & _ & _ & Ht & Hns).
    pose proof (Sim_own_timer w id k HI HS Hk Hs) as Hi.
    pose proof (sim_low w HS) as H0. pose proof (sim_high w HS) as H1.
    destruct k; try discriminate; destruct r; try discriminate;
      injection Hstep as <-; apply Sim_quiet; cbn;
      try done; try qc_const; by rewrite Ht.
  - destruct k; try discriminate; destruct r; try discriminate;
      injection Hstep as <-;
      (apply (Sim_frame w); [done | reflexivity .. |]);
      intros; cbn; by eapply delete_side_request.
Qed.

Lemma Sim_fire w id w' : Inv w -> Sim w -> onFire id w = Some w' -> Sim w'.
Proof.
  intros HI HS Hstep. pose proof (Inv_fire w id w' HI Hstep) as HI'.
  unfold onFire in Hstep.
  destruct (timeouts w !! id) as [[delay d] |] eqn:Hd; [| done].
  assert (Hne : timeouts w <> ∅).
  { intros E. by rewrite E, lookup_empty in Hd. }
  pose proof (sim_done w HS Hne) as Hp.
  pose proof (Sim_no_timer w HS (Inv_no_scan w HI (or_intror Hne))) as Hi.
  destruct d; injection Hstep as <-;
    (apply Sim_quiet; [apply (Inv_no_scan _ HI'); left | ..]);
    unfold_page; repeat case_match; cbn; rewrite ?Hp; try done;
    try qc_const.
Qed.

Lemma Sim_step w e w' : Inv w -> Sim w -> step w e = Some w' -> Sim w'.
Proof.
  destruct e; cbn; intros HI HS H.
  - injection H as <-. by apply Sim_user.
  - by eapply Sim_tick.
  - by eapply Sim_reply.
  - by eapply Sim_fire.
Qed.

Lemma Sim_run es : forall w w', Inv w -> Sim w -> run w es = Some w' -> Sim w'.
Proof.
  induction es as [| e es IH]; cbn; intros w w' HI HS H.
  - by injection H as <-.
  - destruct (step w e) as [w1 |] eqn:E; [| done].
    eapply IH; [| | exact H]; [by eapply Inv_step | by eapply Sim_step].
Qed.

Lemma reachable_Sim tok w : reachable tok w -> Sim w.
Proof.
  intros [es H]. eapply Sim_run; [apply Inv_mount | apply Sim_mount | exact H].
Qed.

End Simulator.

(** ** Phases, flights and timers *)



(** X2: at any time at most one submission is in flight.  An outstanding
    submission request is the only one, exists only in the scanning phase
    and excludes a pending deferred transition; a pending deferred
    transition is the only one, exists only in the scanning phase and
    excludes an outstanding submission request. *)
Theorem single_flight tok w :
  reachable tok w ->
  (forall id k,
      fetches w !! id = Some k -> is_scan k = true ->
      phase (ui w) = Scanning /\ timeouts w = ∅
      /\ forall id' k', fetches w !! id' = Some k' -> is_scan k' = true ->
                        id' = id)
  /\ (forall id t,
        timeouts w !! id = Some t ->
        phase (ui w) = Scanning /\ timeouts w = {[ id := t ]}
        /\ forall id' k', fetches w !! id' = Some k' -> is_scan k' = false).
Proof.
  intros Hr. apply reachable_Inv in Hr.
  destruct Hr as [_ _ _ _ Hns Ht | id0 k0 Hp _ _ _ Hk0 Hs0 Hu Ht
                 | id0 t0 Hp _ _ _ Hns Ht]; split.
  - intros id k Hk Hs. apply Hns in Hk. congruence.
  - intros id t H. by rewrite Ht, lookup_empty in H.
  - intros id k Hk Hs. split_and!; try done.
    intros id' k' Hk' Hs'.
    rewrite (Hu id' k' Hk' Hs'). symmetry. by apply (Hu id k).
  - intros id t H. by rewrite Ht, lookup_empty in H.
  - intros id k Hk Hs. apply Hns in Hk. congruence.
  - intros id t H. rewrite Ht in H.
    apply lookup_singleton_Some in H as [-> ->]. done.
Qed.

Lemma single_flight_witness :
  reachable None Scenario.scanning
  /\ forall id k,
      fetches Scenario.scanning !! id = Some k -> is_scan k = true ->
      phase (ui Scenario.scanning) = Scanning
      /\ timeouts Scenario.scanning = ∅
      /\ forall id' k', fetches Scenario.scanning !! id' = Some k' ->
                        is_scan k' = true -> id' = id.
Proof.
  assert (Hr : reachable None Scenario.scanning) by sample_reachable.
  split; [exact Hr |].
  exact (proj1 (single_flight None Scenario.scanning Hr)).
Defined.

(** X3: no interval outlives its submission.  A live interval belongs to
    the submission whose reply is still awaited, it is the only live
    interval, the phase is Scanning and no deferred transition is pending;
    so outside the scanning phase no interval is left running. *)
Theorem timer_only_while_waiting tok w :
  reachable tok w ->
  (forall id iv,
      intervals w !! id = Some iv ->
      phase (ui w) = Scanning
      /\ (exists k, fetches w !! id = Some k /\ is_scan k = true)
      /\ timeouts w = ∅
      /\ forall id' iv', intervals w !! id' = Some iv' -> id' = id)
  /\ (phase (ui w) <> Scanning -> intervals w = ∅).
Proof.
  intros Hr. pose proof (reachable_Inv tok w Hr) as HI.
  pose proof (reachable_Sim tok w Hr) as HS.
  assert (Hmain : forall id iv,
             intervals w !! id = Some iv ->
             phase (ui w) = Scanning
             /\ (exists k, fetches w !! id = Some k /\ is_scan k = true)
             /\ timeouts w = ∅
             /\ forall id' iv', intervals w !! id' = Some iv' -> id' = id).
  { intros id iv Hiv.
    destruct (sim_timer w HS id iv Hiv) as [(k & Hk & Hs) _].
    destruct (Inv_waiting w id k HI Hk Hs) as (Hp & _ & _ & Ht & _).
    split_and!; eauto.
    intros id' iv' Hiv'. destruct (decide (id' = id)) as [| Hne]; [done |].
    pose proof (Sim_own_timer w id k HI HS Hk Hs) as Hown.
    assert (Hd : delete id (intervals w) !! id' = Some iv')
      by (by apply lookup_delete_Some).
    by rewrite Hown, lookup_empty in Hd. }
  split; [exact Hmain |].
  intros Hp. apply map_empty. intros id.
  destruct (intervals w !! id) as [iv |] eqn:E; [| done].
  by destruct (Hmain id iv E).
Qed.

Lemma timer_only_while_waiting_witness :
  reachable None Scenario.scanning
  /\ intervals Scenario.scanning !! 0%nat
     = Some {| period := 150; magnitude := 12 |}
  /\ phase (ui Scenario.scanning) = Scanning.
Proof.
  assert (Hr : reachable None Scenario.scanning) by sample_reachable.
  assert (Hi : intervals Scenario.scanning !! 0%nat
               = Some {| period := 150; magnitude := 12 |})
    by (vm_compute; reflexivity).
  split; [exact Hr |]. split; [exact Hi |].
  exact (proj1 (proj1 (timer_only_while_waiting None _ Hr) _ _ Hi)).
Defined.

(** X4: in every reachable state [scanProgress] is at least 0 and below
    107 (the cap of 95 plus the largest factor, 12). *)
Theorem progress_bounds tok w :
  reachable tok w ->
  0 <= scanProgress (ui w) /\ scanProgress (ui w) < Qc_of_Z 107.
Proof.
  intros Hr. apply reachable_Sim in Hr. split; apply Hr.
Qed.

Lemma progress_bounds_witness :
  reachable None Scenario.scanning
  /\ 0 <= scanProgress (ui Scenario.scanning)
  /\ scanProgress (ui Scenario.scanning) < Qc_of_Z 107.
Proof.
  assert (Hr : reachable None Scenario.scanning) by sample_reachable.
  split; [exact Hr |]. exact (progress_bounds None _ Hr).
Defined.

(** X5: from the successful reply until the view changes, progress is
    exactly 100, the view shows 100, no interval is live and no tick can
    happen. *)
Theorem progress_100_until_view_changes tok w id t :
  reachable tok w ->
  timeouts w !! id = Some t ->
  scanProgress (ui w) = Qc_of_Z 100
  /\ shownProgress (ui w) = Qc_of_Z 100
  /\ intervals w = ∅
  /\ forall id' r, step w (Tick id' r) = None.
Proof.
  intros Hr Hd. pose proof (reachable_Inv tok w Hr) as HI.
  pose proof (reachable_Sim tok w Hr) as HS.
  assert (Hne : timeouts w <> ∅).
  { intros E. by rewrite E, lookup_empty in Hd. }
  pose proof (sim_done w HS Hne) as Hp.
  pose proof (Sim_no_timer w HS (Inv_no_scan w HI (or_intror Hne))) as Hi.
  split_and!; try done.
  - unfold shownProgress. rewrite Hp. by destruct (decide _).
  - intros id' r. cbn. unfold onTick. by rewrite Hi, lookup_empty.
Qed.

Lemma progress_100_until_view_changes_witness :
  reachable None Sample.finishing
  /\ timeouts Sample.finishing !! 0%nat
     = Some (600%nat, DAnalyze Scenario.plain)
  /\ scanProgress (ui Sample.finishing) = Qc_of_Z 100.
Proof.
  assert (Hr : reachable None Sample.finishing) by sample_reachable.
  assert (Hd : timeouts Sample.finishing !! 0%nat
               = Some (600%nat, DAnalyze Scenario.plain))
    by (vm_compute; reflexivity).
  split; [exact Hr |]. split; [exact Hd |].
  exact (proj1 (progress_100_until_view_changes None _ 0 _ Hr Hd)).
Defined.

(** ** Validation of the input *)

Section Trim.

Implicit Types (s t : string) (c : Ascii.ascii).

Lemma string_length_ind (P : string -> Prop) :
  (forall s, (forall t, (String.length t < String.length s)%nat -> P t) ->
             P s) ->
  forall s, P s.
Proof.
  intros H s. remember (String.length s) as n eqn:E. revert s E.
  induction (lt_wf n) as [n _ IH]. intros s ->. apply H.
  intros t Ht. by eapply IH.
Qed.

Lemma string_app_nil s : "" +:+ s = s.
Proof. reflexivity. Qed.

Lemma string_app_cons c s t : String c s +:+ t = String c (s +:+ t).
Proof. reflexivity. Qed.

Lemma string_app_assoc s t u : (s +:+ t) +:+ u = s +:+ (t +:+ u).
Proof.
  induction s as [| c s IH]; [done |]. by rewrite !string_app_cons, IH.
Qed.

Lemma string_app_empty s : s +:+ "" = s.
Proof.
  induction s as [| c s IH]; [done |]. by rewrite string_app_cons, IH.
Qed.

Lemma rev_app_acc s acc :
  String.rev_app s acc = String.rev_app s "" +:+ acc.
Proof.
  revert acc. induction s as [| c s IH]; intros acc; cbn; [done |].
  rewrite (IH (String c acc)), (IH (String c "")).
  by rewrite string_app_assoc.
Qed.

Lemma rev_cons c s : String.rev (String c s) = String.rev s +:+ String c "".
Proof. unfold String.rev. cbn. apply rev_app_acc. Qed.

Lemma rev_app s t : String.rev (s +:+ t) = String.rev t +:+ String.rev s.
Proof.
  induction s as [| c s IH].
  - by rewrite string_app_nil, string_app_empty.
  - by rewrite string_app_cons, !rev_cons, IH, string_app_assoc.
Qed.

Lemma rev_involutive s : String.rev (String.rev s) = s.
Proof.
  induction s as [| c s IH]; [done |].
  by rewrite rev_cons, rev_app, IH.
Qed.

Lemma rev_empty s : String.rev s = "" -> s = "".
Proof. intros H. by rewrite <- (rev_involutive s), H. Qed.

(** The lead byte of a longer white-space code point is not itself white
    space, nor the start of a shorter one. *)
Lemma white2_lead c1 c2 : JS.is_white2 c1 c2 = true -> JS.is_white c1 = false.
Proof.
  destruct c1 as [[] [] [] [] [] [] [] []]; intros H;
    first [by vm_compute | by vm_compute in H].
Qed.

Lemma white3_lead c1 c2 c3 :
  JS.is_white3 c1 c2 c3 = true ->
  JS.is_white c1 = false /\ JS.is_white2 c1 c2 = false.
Proof.
  destruct c1 as [[] [] [] [] [] [] [] []]; intros H;
    first [by vm_compute | by vm_compute in H].
Qed.

Lemma white_only_app s t :
  JS.white_only s -> JS.white_only t -> JS.white_only (s +:+ t).
Proof.
  induction 1; intros Ht; rewrite ?string_app_cons, ?string_app_nil;
    by eauto using JS.white_only.
Qed.

(** What [strip] leaves nothing of: a sequence of the code points it
    recognises. *)
Lemma strip_empty_ind w2 w3 (P : string -> Prop) :
  P "" ->
  (forall c s, JS.is_white c = true -> P s -> P (String c s)) ->
  (forall c1 c2 s, w2 c1 c2 = true -> P s -> P (String c1 (String c2 s))) ->
  (forall c1 c2 c3 s,
      w3 c1 c2 c3 = true -> P s -> P (String c1 (String c2 (String c3 s)))) ->
  forall s, JS.strip w2 w3 s = "" -> P s.
Proof.
  intros P0 P1 P2 P3 s. induction s as [s IH] using string_length_ind.
  destruct s as [| c1 [| c2 [| c3 s]]]; cbn; [done | ..].
  - destruct (JS.is_white c1) eqn:E1; [| done]. intros _. by apply P1.
  - destruct (JS.is_white c1) eqn:E1.
    { intros H. apply P1; [done |]. apply IH; [cbn; lia | done]. }
    destruct (w2 c1 c2) eqn:E2; [| done]. intros _. by apply P2.
  - destruct (JS.is_white c1) eqn:E1.
    { intros H. apply P1; [done |]. apply IH; [cbn; lia | done]. }
    destruct (w2 c1 c2) eqn:E2.
    { intros H. apply P2; [done |]. apply IH; [cbn; lia | done]. }
    destruct (w3 c1 c2 c3) eqn:E3; [| done].
    intros H. apply P3; [done |]. apply IH; [cbn; lia | done].
Qed.

Lemma strip_cons w2 w3 c1 r1 :
  JS.strip w2 w3 (String c1 r1)
  = if JS.is_white c1 then JS.strip w2 w3 r1
    else match r1 with
         | EmptyString => String c1 r1
         | String c2 r2 =>
             if w2 c1 c2 then JS.strip w2 w3 r2
             else match r2 with
                  | EmptyString => String c1 r1
                  | String c3 r3 =>
                      if w3 c1 c2 c3 then JS.strip w2 w3 r3
                      else String c1 r1
                  end
         end.
Proof. reflexivity. Qed.

Lemma strip_idemp w2 w3 s :
  JS.strip w2 w3 (JS.strip w2 w3 s) = JS.strip w2 w3 s.
Proof.
  induction s as [s IH] using string_length_ind.
  destruct s as [| c1 r1]; [done |]. rewrite strip_cons.
  destruct (JS.is_white c1) eqn:E1; [apply IH; cbn; lia |].
  destruct r1 as [| c2 r2]; [by rewrite strip_cons, E1 |].
  destruct (w2 c1 c2) eqn:E2; [apply IH; cbn; lia |].
  destruct r2 as [| c3 r3]; [by rewrite strip_cons, E1, E2 |].
  destruct (w3 c1 c2 c3) eqn:E3; [apply IH; cbn; lia |].
  by rewrite strip_cons, E1, E2, E3.
Qed.

Lemma trimStart_white s : JS.white_only s -> JS.trimStart s = "".
Proof.
  unfold JS.trimStart.
  induction 1 as [| c s Hc _ IH | c1 c2 s Hc _ IH | c1 c2 c3 s Hc _ IH];
    [done | rewrite strip_cons ..].
  - by rewrite Hc.
  - by rewrite (white2_lead _ _ Hc), Hc.
  - destruct (white3_lead _ _ _ Hc) as [H1 H2]. by rewrite H1, H2, Hc.
Qed.

Lemma trimStart_empty s : JS.trimStart s = "" <-> JS.white_only s.
Proof.
  split; [| apply trimStart_white].
  apply strip_empty_ind; eauto using JS.white_only.
Qed.

Lemma trimEnd_empty s : JS.trimEnd s = "" -> JS.white_only s.
Proof.
  unfold JS.trimEnd. intros H. apply rev_empty in H.
  rewrite <- (rev_involutive s).
  revert H. generalize (String.rev s). clear s.
  apply strip_empty_ind.
  - constructor.
  - intros c s Hc IH. rewrite rev_cons.
    apply white_only_app; eauto using JS.white_only.
  - intros c1 c2 s Hc IH. rewrite !rev_cons, string_app_assoc.
    apply white_only_app; [done |].
    rewrite ?string_app_cons, ?string_app_nil. eauto using JS.white_only.
  - intros c1 c2 c3 s Hc IH. rewrite !rev_cons, !string_app_assoc.
    apply white_only_app; [done |].
    rewrite ?string_app_cons, ?string_app_nil. eauto using JS.white_only.
Qed.

(** [trim] leaves nothing exactly when the string is white space only. *)
Lemma trim_empty s : JS.trim s = "" <-> JS.white_only s.
Proof.
  unfold JS.trim. split.
  - intros H. apply trimEnd_empty, trimStart_white in H.
    unfold JS.trimStart in H. rewrite strip_idemp in H.
    by apply trimStart_empty.
  - intros H. by rewrite (trimStart_white s H).
Qed.

Lemma truthy_trim s : JS.truthy_string (JS.trim s) = true <-> ~ JS.white_only s.
Proof.
  rewrite <- trim_empty. destruct (JS.trim s); cbn; split; try done.
Qed.

End Trim.

(** X6: [analyze] sends nothing and changes nothing exactly when the
    selected input (the URL field on the URL tab, the text area otherwise)
    consists of white space only: ASCII blanks, no-break spaces, byte order
    marks, line and paragraph separators and the other Unicode spaces that
    [trim] strips.  Any other input starts a submission: one request,
    [predict-url] with the trimmed URL on the URL tab and [predict] with
    the trimmed text on every other tab. *)
Theorem analyze_rejects_blank_only w :
  (analyze w = w <-> JS.white_only (selectedInput (ui w)))
  /\ (~ JS.white_only (selectedInput (ui w)) ->
      phase (ui (analyze w)) = Scanning
      /\ trace (analyze w)
         = Fetch (fresh w)
             (if bool_decide (inputMode (ui w) = Url)
              then PredictUrl (JS.trim (urlInput (ui w))) (optionalAuth w)
              else PredictText (JS.trim (jobText (ui w))) (optionalAuth w))
             :: trace w).
Proof.
  pose proof (truthy_trim (selectedInput (ui w))) as Ht.
  pose proof (trim_empty (selectedInput (ui w))) as He.
  unfold analyze. fold (selectedInput (ui w)).
  destruct (JS.truthy_string (JS.trim (selectedInput (ui w)))) eqn:E;
    cbn [negb].
  - assert (Hn : ~ JS.white_only (selectedInput (ui w))) by by apply Ht.
    split.
    + split; [| done]. intros H.
      apply (f_equal (fun x => length (trace x))) in H. cbn in H. lia.
    + intros _. split; [done |]. cbn. unfold selectedInput.
      by destruct (bool_decide _).
  - assert (Hw : JS.white_only (selectedInput (ui w))).
    { apply He. by destruct (JS.trim (selectedInput (ui w))). }
    split; [done |]. intros Hn. by destruct Hn.
Qed.

(** A text area holding a no-break space and a blank: nothing is sent. *)
Lemma analyze_rejects_blank_only_witness :
  analyze Sample.blankText = Sample.blankText.
Proof.
  apply (proj1 (analyze_rejects_blank_only Sample.blankText)).
  vm_compute. apply JS.white_2; [reflexivity |].
  apply JS.white_1; [reflexivity |]. apply JS.white_nil.
Defined.

(** X7: after [reset] no submission can be started until something is
    entered again: every submission control is disabled or unmounted, and
    Enter in the URL field does nothing. *)
Theorem reset_requires_new_input w a :
  is_submission a = true -> dispatch a (reset w) = reset w.
Proof.
  intros Ha. unfold dispatch. destruct (available (reset w) a) eqn:Hav; [| done].
  destruct a; try discriminate; cbn [handle]; try done.
  - unfold analyze. cbn. by destruct (bool_decide _).
  - unfold analyze. cbn. by destruct (bool_decide _).
  - unfold analyze. cbn. by destruct (bool_decide _).
Qed.

Lemma reset_requires_new_input_witness :
  dispatch PressEnterInUrl (reset Scenario.textVerdict)
  = reset Scenario.textVerdict.
Proof.
  exact (reset_requires_new_input Scenario.textVerdict PressEnterInUrl eq_refl).
Defined.

(** ** Side requests *)

(** X8: the reply to a side request (company check, feedback, history,
    flag, bulk download), whatever it is, leaves the phase, the loading
    flag, the result, the bulk report, progress, the inputs, the intervals
    and the timeouts as they are. *)
Theorem side_replies_keep_session w id k r w' :
  fetches w !! id = Some k ->
  is_scan k = false ->
  onReply id r w = Some w' ->
  phase (ui w') = phase (ui w)
  /\ loading (ui w') = loading (ui w)
  /\ result (ui w') = result (ui w)
  /\ bulkResults (ui w') = bulkResults (ui w)
  /\ scanProgress (ui w') = scanProgress (ui w)
  /\ inputMode (ui w') = inputMode (ui w)
  /\ pendingInput (ui w') = pendingInput (ui w)
  /\ intervals w' = intervals w
  /\ timeouts w' = timeouts w.
Proof.
  intros Hk Hs. unfold onReply. rewrite Hk.
  destruct k; try discriminate; destruct r; intros [= <-]; by split_and!.
Qed.

Lemma side_replies_keep_session_witness :
  exists w',
    onReply 1 (ReplyThrow "Failed to fetch") Scenario.textVerdict = Some w'
    /\ phase (ui w') = phase (ui Scenario.textVerdict)
    /\ result (ui w') = result (ui Scenario.textVerdict).
Proof.
  eexists. split; [vm_compute; reflexivity |].
  match goal with
  | |- phase (ui ?w') = _ /\ _ =>
      assert (Hk : fetches Scenario.textVerdict !! 1%nat = Some KVerify)
        by (vm_compute; reflexivity);
      assert (Hs : onReply 1 (ReplyThrow "Failed to fetch")
                     Scenario.textVerdict = Some w')
        by (vm_compute; reflexivity);
      destruct (side_replies_keep_session _ _ _ _ _ Hk eq_refl Hs)
        as (H1 & _ & H3 & _)
  end.
  split; [exact H1 | exact H3].
Defined.

(** X9: whatever reply a company check gets, the [finally] clears
    [companyLoading]; [companyVerify] is overwritten by a successful reply
    only (with its body, [null] included); and a failed check is never
    alerted. *)
Theorem verifyCompany_settles w id r w' :
  fetches w !! id = Some KVerify ->
  onReply id r w = Some w' ->
  companyLoading (ui w') = false
  /\ companyVerify (ui w')
     = match r with
       | ReplyCompany data => Some data
       | ReplyNull => None
       | _ => companyVerify (ui w)
       end
  /\ alerts (trace w') = alerts (trace w).
Proof.
  intros Hk. unfold onReply. rewrite Hk.
  destruct r; intros [= <-]; by split_and!.
Qed.

Lemma verifyCompany_settles_witness :
  fetches Sample.verifying !! 3%nat = Some KVerify
  /\ exists w',
       onReply 3 (ReplyError (Some "Service unavailable")) Sample.verifying
       = Some w'
       /\ companyLoading (ui w') = false.
Proof.
  assert (Hk : fetches Sample.verifying !! 3%nat = Some KVerify)
    by (vm_compute; reflexivity).
  split; [exact Hk |]. eexists.
  assert (Hs : onReply 3 (ReplyError (Some "Service unavailable"))
                 Sample.verifying
               = Some (upd (setCompanyLoading false)
                         (settle 3 Sample.verifying)))
    by (vm_compute; reflexivity).
  split; [exact Hs |].
  exact (proj1 (verifyCompany_settles _ _ _ _ Hk Hs)).
Defined.

(** ** Credentials *)

Section Credentials.

Implicit Types (w : World).

Lemma authorized_optional w :
  match optionalAuth w with
  | Some t => JS.truthy_string t
  | None => true
  end = true.
Proof.
  unfold optionalAuth. destruct (token w) as [t |] eqn:E; cbn; [| done].
  by destruct (JS.truthy_string t) eqn:Ht.
Qed.

Lemma available_flag_token w :
  available w ClickFlag = true -> JS.truthy_field (token w) = true.
Proof. unfold available. intros H. by apply andb_prop in H as [_ H]. Qed.

Ltac auth_goal :=
  repeat match goal with
         | |- Forall _ (_ :: _) => apply Forall_cons; split
         end;
  try assumption; cbn;
  try done; try apply authorized_optional.

Lemma auth_user w a :
  Forall effect_authorized (trace w) ->
  Forall effect_authorized (trace (dispatch a w)).
Proof.
  intros H. unfold dispatch. destruct (available w a) eqn:Ha; [| done].
  destruct a; cbn [handle]; try done;
    try (apply available_flag_token in Ha);
    unfold_page; repeat case_match; cbn; auth_goal;
    (destruct (JS.truthy_field (token w));
     [done | cbn in *; rewrite ?orb_true_r in *; discriminate]).
Qed.

Lemma auth_step w e w' :
  step w e = Some w' ->
  Forall effect_authorized (trace w) ->
  Forall effect_authorized (trace w').
Proof.
  destruct e as [a | id r | id r | id]; cbn [step]; intros Hstep H.
  - injection Hstep as <-. by apply auth_user.
  - unfold onTick, tickUpdate in Hstep. repeat case_match; by simplify_eq.
  - unfold onReply in Hstep.
    destruct (fetches w !! id) as [k |]; [| done].
    destruct k, r; simplify_eq; cbn; auth_goal.
  - unfold onFire in Hstep.
    destruct (timeouts w !! id) as [[delay d] |]; [| done].
    destruct d; injection Hstep as <-;
      unfold_page; repeat case_match; cbn; auth_goal.
Qed.

Lemma auth_run es :
  forall w w',
    run w es = Some w' ->
    Forall effect_authorized (trace w) ->
    Forall effect_authorized (trace w').
Proof.
  induction es as [| e es IH]; cbn; intros w w' H Hw.
  - by injection H as <-.
  - destruct (step w e) as [w1 |] eqn:E; [| done].
    eapply IH; [exact H |]. by eapply auth_step.
Qed.

End Credentials.

(** X10: no request for bulk analysis, bulk download, feedback, flagging or
    history ever leaves the page without a non-empty token, and a request
    for a text, URL or image prediction carries either no [Authorization]
    header or a non-empty token. *)
Theorem requests_carry_token tok w id req :
  reachable tok w ->
  Fetch id req ∈ trace w ->
  authorized req = true.
Proof.
  intros [es Hrun] Hin.
  assert (H : Forall effect_authorized (trace w)).
  { eapply auth_run; [exact Hrun |].
    unfold mount, refreshHistory. case_match; cbn; [| done].
    apply Forall_cons. split; [| done]. by cbn. }
  rewrite Forall_forall in H. exact (H _ Hin).
Qed.

Lemma requests_carry_token_witness :
  reachable Scenario.jwt Scenario.downloading
  /\ Fetch 2 (PredictBulkDownload Scenario.batch Scenario.jwt)
     ∈ trace Scenario.downloading
  /\ authorized (PredictBulkDownload Scenario.batch Scenario.jwt) = true.
Proof.
  assert (Hr : reachable Scenario.jwt Scenario.downloading)
    by sample_reachable.
  assert (Hin : Fetch 2 (PredictBulkDownload Scenario.batch Scenario.jwt)
                ∈ trace Scenario.downloading)
    by (vm_compute; apply list_elem_of_here).
  split; [exact Hr |]. split; [exact Hin |].
  exact (requests_carry_token _ _ _ _ Hr Hin).
Defined.

(** ** Retry *)

#[local] Arguments JS.trim : simpl never.

Section Retry.

Implicit Types (v : World).

Lemma restart_text v :
  phase (ui v) = Input -> loading (ui v) = false ->
  inputMode (ui v) = Text ->
  JS.truthy_string (JS.trim (jobText (ui v))) = true ->
  restarted ClickRunAnalysis v.
Proof.
  intros Hp Hl Hm Ht. unfold restarted, dispatch, available, inputView.
  rewrite Hp, Hl, Hm, Ht. cbn [bool_decide decide_rel negb andb orb handle].
  rewrite !bool_decide_eq_true_2 by done. cbn [andb].
  unfold analyze. rewrite Hm, bool_decide_eq_false_2 by done. rewrite Ht.
  cbn. eauto.
Qed.

Lemma restart_url v :
  phase (ui v) = Input -> loading (ui v) = false ->
  inputMode (ui v) = Url ->
  JS.truthy_string (JS.trim (urlInput (ui v))) = true ->
  restarted ClickScanUrl v.
Proof.
  intros Hp Hl Hm Ht. unfold restarted, dispatch, available, inputView.
  rewrite Hp, Hl, Hm, Ht. cbn [negb andb orb handle].
  rewrite !bool_decide_eq_true_2 by done. cbn [andb].
  unfold analyze. rewrite Hm, bool_decide_eq_true_2 by done. rewrite Ht.
  cbn. eauto.
Qed.

Lemma restart_bulk v :
  phase (ui v) = Input -> loading (ui v) = false ->
  inputMode (ui v) = Csv -> is_Some (csvFile (ui v)) ->
  JS.truthy_field (token v) = true ->
  restarted ClickAnalyzeBulk v.
Proof.
  intros Hp Hl Hm [file Hf] Ht. unfold restarted, dispatch, available, inputView.
  rewrite Hp, Hl, Hm, Ht, Hf. cbn [negb andb orb handle].
  rewrite !bool_decide_eq_true_2 by eauto. cbn [andb].
  unfold analyzeBulk. rewrite Hf, Ht. cbn. eauto.
Qed.

Lemma restart_image v :
  phase (ui v) = Input -> loading (ui v) = false ->
  inputMode (ui v) = Image -> is_Some (imageFile (ui v)) ->
  restarted ClickAnalyzeImage v.
Proof.
  intros Hp Hl Hm [file Hf]. unfold restarted, dispatch, available, inputView.
  rewrite Hp, Hl, Hm, Hf. cbn [negb andb orb handle].
  rewrite !bool_decide_eq_true_2 by eauto. cbn [andb].
  unfold analyzeImage. rewrite Hf. cbn. eauto.
Qed.

End Retry.

(** X11: after a failed submission the page is ready for the same
    submission again without anything being re-entered: the control of the
    tab it was started from is enabled, and using it starts a new scan at
    progress 0 with a new request. *)
Theorem retry_after_failure tok w id k r w' :
  reachable tok w ->
  fetches w !! id = Some k ->
  is_scan k = true ->
  is_failure r = true ->
  onReply id r w = Some w' ->
  available w' (retryAction (inputMode (ui w')) k) = true
  /\ phase (ui (dispatch (retryAction (inputMode (ui w')) k) w')) = Scanning
  /\ scanProgress (ui (dispatch (retryAction (inputMode (ui w')) k) w')) = 0
  /\ exists req,
      trace (dispatch (retryAction (inputMode (ui w')) k) w')
      = Fetch (fresh w') req :: trace w'.
Proof.
  intros Hr Hk Hs Hf Hstep.
  pose proof (sim_input w (reachable_Sim tok w Hr) id k Hk) as Hsub.
  unfold onReply in Hstep. rewrite Hk in Hstep.
  change (restarted (retryAction (inputMode (ui w')) k) w').
  destruct k; try discriminate; destruct r; try discriminate;
    injection Hstep as <-; unfold submitted, selectedInput in Hsub;
    unfold retryAction; cbn [inputMode ui scanFailed upd emit clearInterval
                               settle setPhase setLoading].
  all: try (destruct Hsub as [[Hm | Hm] Ht]; rewrite Hm in Ht |- *;
            [ rewrite bool_decide_eq_false_2 in Ht |- * by done;
              by apply restart_text
            | rewrite bool_decide_eq_true_2 in Ht |- * by done;
              by apply restart_url ]).
  all: try (destruct Hsub as (Hm & Hfile & Ht); by apply restart_bulk).
  all: destruct Hsub as (Hm & Hfile); by apply restart_image.
Qed.

Lemma retry_after_failure_witness :
  reachable None Scenario.scanning
  /\ onReply 0 (ReplyThrow "Failed to fetch") Scenario.scanning
     = Some (scanFailed 0 "Failed to fetch" (settle 0 Scenario.scanning))
  /\ restarted
       (retryAction
          (inputMode
             (ui (scanFailed 0 "Failed to fetch" (settle 0 Scenario.scanning))))
          KAnalyze)
       (scanFailed 0 "Failed to fetch" (settle 0 Scenario.scanning)).
Proof.
  assert (Hr : reachable None Scenario.scanning) by sample_reachable.
  assert (Hk : fetches Scenario.scanning !! 0%nat = Some KAnalyze)
    by (vm_compute; reflexivity).
  assert (Hs : onReply 0 (ReplyThrow "Failed to fetch") Scenario.scanning
               = Some (scanFailed 0 "Failed to fetch"
                         (settle 0 Scenario.scanning)))
    by (vm_compute; reflexivity).
  split; [exact Hr |]. split; [exact Hs |].
  exact (retry_after_failure None Scenario.scanning 0 KAnalyze
           (ReplyThrow "Failed to fetch") _ Hr Hk eq_refl eq_refl Hs).
Defined.

(** * Display values *)

Section Ratios.

Lemma max_lower_l a b : a <= JSMath.max a b.
Proof.
  unfold JSMath.max. destruct (decide (a <= b)); [done | apply Qcle_refl].
Qed.

Lemma max_lower_r a b : b <= JSMath.max a b.
Proof.
  unfold JSMath.max. destruct (decide (a <= b)) as [| H]; [apply Qcle_refl |].
  apply Qclt_le_weak. by apply Qcnot_le_lt.
Qed.

Lemma max_upper a b c : a <= c -> b <= c -> JSMath.max a b <= c.
Proof. intros Ha Hb. unfold JSMath.max. by destruct (decide (a <= b)). Qed.

Lemma ratio_le_1 x y : 0 < y -> x <= y -> x / y <= 1.
Proof.
  intros Hy Hxy. unfold Qcdiv.
  rewrite <- (Qcmult_inv_r y) by (by apply Qclt_not_eq, not_eq_sym in Hy).
  apply Qcmult_le_mono_nonneg_r; [| done].
  apply Qclt_le_weak. by apply Qcinv_pos.
Qed.

Lemma ratio_nonneg x y : 0 < y -> 0 <= x -> 0 <= x / y.
Proof.
  intros Hy Hx. unfold Qcdiv. apply Qcmult_nonneg_nonneg; [done |].
  apply Qclt_le_weak. by apply Qcinv_pos.
Qed.

Lemma percent_le_100 x : x <= 1 -> x * Qc_of_Z 100 <= Qc_of_Z 100.
Proof.
  intros H. rewrite <- (Qcmult_1_l (Qc_of_Z 100)) at 2.
  apply Qcmult_le_mono_nonneg_r; [by vm_compute | done].
Qed.

Lemma percent_nonneg x : 0 <= x -> 0 <= x * Qc_of_Z 100.
Proof. intros H. apply Qcmult_nonneg_nonneg; [done | by vm_compute]. Qed.

End Ratios.

(** X12: whatever the risk factors are, the divisor [maxW] is never 0
    (it falls back to 1 when there is no factor or the first one has
    weight 0) and a risk bar is never narrower than 10 %.  When the first
    factor has a positive weight and no factor outweighs it (the order the
    backend delivers), every bar is at most 100 % wide and the first bar
    is exactly 100 %. *)
Theorem risk_bar_width rfs rf :
  VerdictView.maxW rfs <> 0
  /\ Qc_of_Z 10 <= VerdictView.barW rfs rf
  /\ (rfs = [] \/ (exists first rest, rfs = first :: rest /\ weight first = 0) ->
      VerdictView.maxW rfs = 1)
  /\ (forall first rest,
        rfs = first :: rest ->
        0 < weight first ->
        (forall x, x ∈ rfs -> weight x <= weight first) ->
        rf ∈ rfs ->
        VerdictView.barW rfs rf <= Qc_of_Z 100
        /\ VerdictView.barW rfs first = Qc_of_Z 100).
Proof.
  split_and!.
  - destruct rfs as [| first rest]; cbn; [done |].
    by destruct (decide (weight first = 0)).
  - apply max_lower_l.
  - intros [-> | (first & rest & -> & H0)]; cbn; [done |].
    by destruct (decide (weight first = 0)).
  - intros first rest -> Hpos Hmax Hin.
    assert (Hne : weight first <> 0) by (by apply not_eq_sym, Qclt_not_eq).
    assert (HmaxW : VerdictView.maxW (first :: rest) = weight first).
    { cbn. by destruct (decide (weight first = 0)). }
    unfold VerdictView.barW. rewrite HmaxW. split.
    + apply max_upper; [by vm_compute |].
      apply percent_le_100, ratio_le_1; auto.
    + unfold Qcdiv. rewrite Qcmult_inv_r by done. rewrite Qcmult_1_l.
      unfold JSMath.max. destruct (decide _) as [| H]; [done |].
      exfalso. apply H. by vm_compute.
Qed.

Lemma risk_bar_width_witness :
  VerdictView.barW [Sample.strong; Sample.weak] Sample.weak = Qc_of_Z 25
  /\ VerdictView.barW [Sample.strong; Sample.weak] Sample.weak <= Qc_of_Z 100
  /\ VerdictView.maxW [Sample.weightless; Sample.strong] = 1.
Proof.
  split_and!.
  - apply Qc_is_canon. vm_compute. reflexivity.
  - refine (proj1 (proj2 (proj2 (proj2
              (risk_bar_width [Sample.strong; Sample.weak] Sample.weak)))
              Sample.strong [Sample.weak] eq_refl _ _ _)).
    + by vm_compute.
    + intros x Hx. apply list_elem_of_In in Hx.
      destruct Hx as [<- | [<- | []]]; by vm_compute.
    + apply list_elem_of_In. right. by left.
  - apply (proj1 (proj2 (proj2
             (risk_bar_width [Sample.weightless; Sample.strong]
                Sample.strong)))).
    right. by exists Sample.weightless, [Sample.strong].
Defined.

(** X13: for a confidence between 0 and 100 the confidence marker stays on
    the meter: its offset is between 0 and 100 %, on the right half for a
    fake and on the left half otherwise. *)
Theorem marker_stays_on_meter r :
  (0 <= confidence r <= 100)%Z ->
  0 <= VerdictView.markerLeft r
  /\ VerdictView.markerLeft r <= Qc_of_Z 100
  /\ (prediction r = "Fake" -> Qc_of_Z 50 <= VerdictView.markerLeft r)
  /\ (prediction r <> "Fake" -> VerdictView.markerLeft r <= Qc_of_Z 50).
Proof.
  intros [H0 H1].
  assert (Hlo : 0 <= Qc_of_Z (confidence r) / Qc_of_Z 2).
  { apply ratio_nonneg; [by vm_compute |].
    exact (proj1 (Z2Qc_inj_le 0 _) H0). }
  assert (Hhi : Qc_of_Z (confidence r) / Qc_of_Z 2 <= Qc_of_Z 50).
  { unfold Qcdiv.
    replace (Qc_of_Z 50) with (Qc_of_Z 100 * / Qc_of_Z 2)
      by (apply Qc_is_canon; vm_compute; reflexivity).
    apply Qcmult_le_mono_nonneg_r; [by vm_compute |].
    exact (proj1 (Z2Qc_inj_le _ 100) H1). }
  assert (E100 : Qc_of_Z 50 + Qc_of_Z 50 = Qc_of_Z 100)
    by (apply Qc_is_canon; vm_compute; reflexivity).
  unfold VerdictView.markerLeft.
  destruct (bool_decide (prediction r = "Fake")) eqn:E.
  - apply bool_decide_eq_true in E. split_and!; try done.
    + apply Qcle_trans with (Qc_of_Z 50); [by vm_compute |].
      rewrite <- (Qcplus_0_r (Qc_of_Z 50)) at 1. by apply Qcplus_le_mono_l.
    + rewrite <- E100. by apply Qcplus_le_mono_l.
    + intros _. rewrite <- (Qcplus_0_r (Qc_of_Z 50)) at 1.
      by apply Qcplus_le_mono_l.
  - apply bool_decide_eq_false in E. unfold Qcminus.
    assert (Hneg : - (Qc_of_Z (confidence r) / Qc_of_Z 2) <= 0).
    { apply Qcopp_le_compat in Hlo. exact Hlo. }
    assert (Hneg' : - Qc_of_Z 50 <= - (Qc_of_Z (confidence r) / Qc_of_Z 2)).
    { by apply Qcopp_le_compat. }
    split_and!; try done.
    + replace 0 with (Qc_of_Z 50 + - Qc_of_Z 50)
        by (apply Qc_is_canon; vm_compute; reflexivity).
      by apply Qcplus_le_mono_l.
    + apply Qcle_trans with (Qc_of_Z 50); [| by vm_compute].
      rewrite <- (Qcplus_0_r (Qc_of_Z 50)) at 2. by apply Qcplus_le_mono_l.
    + intros _. rewrite <- (Qcplus_0_r (Qc_of_Z 50)) at 2.
      by apply Qcplus_le_mono_l.
Qed.

Lemma marker_stays_on_meter_witness :
  (0 <= confidence Scenario.acme <= 100)%Z
  /\ VerdictView.markerLeft Scenario.acme <= Qc_of_Z 100.
Proof.
  assert (H : (0 <= confidence Scenario.acme <= 100)%Z) by (cbn; lia).
  split; [exact H |].
  exact (proj1 (proj2 (marker_stays_on_meter Scenario.acme H))).
Defined.

(** * The dashboard *)

(** X14: [loadData] always ends with [loading] cleared.  When either
    request throws, neither [stats] nor [trending] is written, even if the
    other response was fine; an unreadable stats body likewise keeps
    [trending] from being written; a stats response that is merely not ok
    does not. *)
Theorem loadData_outcomes statsRes trendRes s :
  Dashboard.loading (Dashboard.loadData statsRes trendRes s).1 = false
  /\ (statsRes = Dashboard.Threw \/ trendRes = Dashboard.Threw ->
      Dashboard.stats (Dashboard.loadData statsRes trendRes s).1
      = Dashboard.stats s
      /\ Dashboard.trending (Dashboard.loadData statsRes trendRes s).1
         = Dashboard.trending s
      /\ (Dashboard.loadData statsRes trendRes s).2 = true)
  /\ (forall ok2 json2,
        statsRes = Dashboard.Response true None ->
        trendRes = Dashboard.Response ok2 json2 ->
        Dashboard.trending (Dashboard.loadData statsRes trendRes s).1
        = Dashboard.trending s)
  /\ (forall json1 t,
        statsRes = Dashboard.Response false json1 ->
        trendRes = Dashboard.Response true (Some t) ->
        Dashboard.stats (Dashboard.loadData statsRes trendRes s).1
        = Dashboard.stats s
        /\ Dashboard.trending (Dashboard.loadData statsRes trendRes s).1
           = Some t).
Proof.
  split_and!.
  - destruct statsRes as [| [] []], trendRes as [| [] []]; reflexivity.
  - intros [-> | ->]; [by destruct trendRes |].
    by destruct statsRes as [| [] []].
  - by intros ok2 json2 -> ->.
  - by intros json1 t -> ->.
Qed.

Section Rounding.

Lemma round_bounds (x : Qc) (lo hi : Z) :
  Qc_of_Z lo <= x -> x <= Qc_of_Z hi -> (lo <= JSMath.round x <= hi)%Z.
Proof.
  intros Hlo Hhi. unfold JSMath.round. unfold Qcle in Hlo, Hhi.
  change (this (Qc_of_Z lo)) with (inject_Z lo) in Hlo.
  change (this (Qc_of_Z hi)) with (inject_Z hi) in Hhi.
  split.
  - apply Z.le_trans with (Qfloor (inject_Z lo)); [by rewrite Qfloor_Z |].
    apply Qfloor_resp_le. lra.
  - assert (H : (this x + (1 # 2) < inject_Z (hi + 1))%Q).
    { rewrite inject_Z_plus. change (inject_Z 1) with 1%Q. lra. }
    pose proof (Qfloor_le (this x + (1 # 2))) as Hf.
    pose proof (Qle_lt_trans _ _ _ Hf H) as Hlt.
    rewrite <- Zlt_Qlt in Hlt. lia.
Qed.

End Rounding.

(** X15: the agreement rate is the dash exactly when no feedback was given,
    so the division never has a zero divisor; with between 0 and
    [feedback_given] agreements it is a percentage between 0 and 100. *)
Theorem agreementRate_range s :
  (Dashboard.agreementRate s = None
   <-> (Dashboard.feedback_given s <= 0)%Z)
  /\ ((0 <= Dashboard.feedback_agree s <= Dashboard.feedback_given s)%Z ->
      forall n, Dashboard.agreementRate s = Some n -> (0 <= n <= 100)%Z).
Proof.
  unfold Dashboard.agreementRate.
  destruct (0 <? Dashboard.feedback_given s)%Z eqn:E.
  - apply Z.ltb_lt in E. split; [split; [discriminate | lia] |].
    intros [H0 H1] n [= <-].
    assert (Hg : 0 < Qc_of_Z (Dashboard.feedback_given s))
      by exact (proj1 (Z2Qc_inj_lt 0 _) E).
    apply round_bounds.
    + apply percent_nonneg, ratio_nonneg; [done |].
      exact (proj1 (Z2Qc_inj_le 0 _) H0).
    + apply percent_le_100, ratio_le_1; [done |].
      exact (proj1 (Z2Qc_inj_le _ _) H1).
  - apply Z.ltb_ge in E. split; [done | discriminate].
Qed.

Section Weeks.

Lemma maxVal_ge_1 weeks : 1 <= Dashboard.maxVal weeks.
Proof.
  induction weeks as [| w weeks IH]; cbn; [apply Qcle_refl |].
  apply Qcle_trans with (Dashboard.maxVal weeks); [done | apply max_lower_r].
Qed.

Lemma maxVal_ge_total weeks w :
  w ∈ weeks -> Qc_of_Z (Dashboard.total w) <= Dashboard.maxVal weeks.
Proof.
  induction 1 as [w weeks | w w' weeks _ IH]; cbn.
  - apply max_lower_l.
  - apply Qcle_trans with (Dashboard.maxVal weeks); [done | apply max_lower_r].
Qed.

End Weeks.

(** X16: in the weekly chart the divisor is at least 1; every listed week
    gets a bar between 8 and 100 high; and when the week's fraud count is
    between 0 and its total, the fraud part is no higher than the bar. *)
Theorem weekly_bar_heights weeks w :
  w ∈ weeks ->
  1 <= Dashboard.maxVal weeks
  /\ Qc_of_Z 8 <= Dashboard.barH weeks w
  /\ Dashboard.barH weeks w <= Qc_of_Z 100
  /\ ((0 <= Dashboard.fake w <= Dashboard.total w)%Z ->
      0 <= Dashboard.fakeH weeks w
      /\ Dashboard.fakeH weeks w <= Dashboard.barH weeks w).
Proof.
  intros Hin. pose proof (maxVal_ge_1 weeks) as H1.
  assert (Hpos : 0 < Dashboard.maxVal weeks).
  { apply Qclt_le_trans with 1; [by vm_compute | done]. }
  assert (H8 : Qc_of_Z 8 <= Dashboard.barH weeks w) by apply max_lower_l.
  split_and!; try done.
  - apply max_upper; [by vm_compute |].
    apply percent_le_100, ratio_le_1; [done |]. by apply maxVal_ge_total.
  - intros [Hf0 Hft]. unfold Dashboard.fakeH.
    assert (Hb : 0 <= Dashboard.barH weeks w).
    { apply Qcle_trans with (Qc_of_Z 8); [by vm_compute | done]. }
    destruct (0 <? Dashboard.total w)%Z eqn:E.
    + apply Z.ltb_lt in E.
      assert (Ht : 0 < Qc_of_Z (Dashboard.total w))
        by exact (proj1 (Z2Qc_inj_lt 0 _) E).
      split.
      * apply Qcmult_nonneg_nonneg; [| done].
        apply ratio_nonneg; [done |]. exact (proj1 (Z2Qc_inj_le 0 _) Hf0).
      * rewrite <- (Qcmult_1_l (Dashboard.barH weeks w)) at 2.
        apply Qcmult_le_mono_nonneg_r; [done |].
        apply ratio_le_1; [done |]. exact (proj1 (Z2Qc_inj_le _ _) Hft).
    + split; [apply Qcle_refl | done].
Qed.

Lemma weekly_bar_heights_witness :
  Dashboard.barH
    [ {| Dashboard.week := "2025-W07"; Dashboard.total := 4;
         Dashboard.fake := 1 |} ]
    {| Dashboard.week := "2025-W07"; Dashboard.total := 4;
       Dashboard.fake := 1 |}
  <= Qc_of_Z 100.
Proof.
  refine (proj1 (proj2 (proj2 (weekly_bar_heights _ _ _)))).
  apply list_elem_of_here.
Defined.

(** * The theme provider *)

Section ThemeFacts.

Lemma theme_persist w :
  Theme.stored (Theme.persist w) = Some (Theme.theme w)
  /\ Theme.dataTheme (Theme.persist w) = Some (Theme.theme w).
Proof. done. Qed.

(** After mounting and any number of toggles the stored entry and the
    document attribute are the current theme, which is not empty. *)
Lemma theme_invariant saved attr n :
  let w := Nat.iter n Theme.toggle (Theme.mountProvider saved attr) in
  Theme.stored w = Some (Theme.theme w)
  /\ Theme.dataTheme w = Some (Theme.theme w)
  /\ JS.truthy_string (Theme.theme w) = true.
Proof.
  induction n as [| n IH]; cbn.
  - unfold Theme.mountProvider. destruct saved as [t |]; [| done].
    by destruct (JS.truthy_string t) eqn:E.
  - split_and!; try done. by destruct (bool_decide _).
Qed.

End ThemeFacts.

(** X17: the theme survives a reload.  After mounting the provider and
    toggling any number of times, the storage entry and the [data-theme]
    attribute both hold the current theme, and mounting the provider again
    over that storage comes up with the same theme. *)
Theorem theme_survives_reload saved attr n attr' :
  Theme.stored (Nat.iter n Theme.toggle (Theme.mountProvider saved attr))
  = Some (Theme.theme
            (Nat.iter n Theme.toggle (Theme.mountProvider saved attr)))
  /\ Theme.dataTheme (Nat.iter n Theme.toggle (Theme.mountProvider saved attr))
     = Some (Theme.theme
               (Nat.iter n Theme.toggle (Theme.mountProvider saved attr)))
  /\ Theme.theme
       (Theme.mountProvider
          (Theme.stored
             (Nat.iter n Theme.toggle (Theme.mountProvider saved attr)))
          attr')
     = Theme.theme (Nat.iter n Theme.toggle (Theme.mountProvider saved attr)).
Proof.
  destruct (theme_invariant saved attr n) as (Hs & Hd & Ht).
  split_and!; try done.
  rewrite Hs. unfold Theme.mountProvider at 1. cbv beta iota. by rewrite Ht.
Qed.

(** X18: one toggle always lands on ['dark'] or ['light'], ['light'] only
    from ['dark']; two toggles give back the theme exactly when it was one
    of those two, so a foreign value found in storage is left for good at
    the first toggle. *)
Theorem toggle_two_themes w :
  (Theme.theme (Theme.toggle w) = "light" <-> Theme.theme w = "dark")
  /\ (Theme.theme (Theme.toggle w) = "dark" <-> Theme.theme w <> "dark")
  /\ (Theme.theme (Theme.toggle (Theme.toggle w)) = Theme.theme w
      <-> Theme.theme w = "dark" \/ Theme.theme w = "light").
Proof.
  unfold Theme.toggle. cbn.
  destruct (decide (Theme.theme w = "dark")) as [E | E].
  - rewrite bool_decide_eq_true_2 by done. cbn. rewrite E.
    split_and!; split; try done; auto.
  - rewrite bool_decide_eq_false_2 by done. cbn.
    split_and!; split; try done.
    + intros H. symmetry in H. by right.
    + intros [H | H]; [done |]. by rewrite H.
Qed.

(** * The navigation bar *)

(** X19: the links of the navigation bar have pairwise different targets
    (they are the React keys), so at most one of them is active for a
    given path; the dashboard link is there exactly for a signed-in user
    and the admin link exactly for a user whose role is ['admin']. *)
Theorem navbar_links user pathname :
  NoDup (Navbar.href <$> Navbar.links user)
  /\ (length (filter
                 (fun l => Navbar.isActive pathname (Navbar.href l) = true)
                 (Navbar.links user)) <= 1)%nat
  /\ ("/dashboard" ∈ (Navbar.href <$> Navbar.links user) <-> is_Some user)
  /\ ("/admin" ∈ (Navbar.href <$> Navbar.links user)
      <-> exists u, user = Some u /\ Navbar.role u = Some "admin").
Proof.
  assert (Hnd : NoDup (Navbar.href <$> Navbar.links user)).
  { unfold Navbar.links, Navbar.is_admin.
    destruct user as [u |]; [destruct (bool_decide _) |]; cbn;
      by apply (bool_decide_unpack _). }
  split_and!.
  - exact Hnd.
  - unfold Navbar.isActive, Navbar.links, Navbar.is_admin.
    destruct user as [u |]; [destruct (bool_decide (Navbar.role u = _)) |];
      cbn; repeat case_decide; cbn;
      repeat match goal with
             | H : bool_decide _ = true |- _ => apply bool_decide_eq_true in H
             end; simplify_eq; lia.
  - unfold Navbar.links, Navbar.is_admin.
    destruct user as [u |]; [destruct (bool_decide _) |]; cbn;
      split; try (intros _; by eauto); set_solver.
  - unfold Navbar.links, Navbar.is_admin.
    destruct user as [u |].
    + destruct (bool_decide _) eqn:E; cbn.
      * apply bool_decide_eq_true in E. split; [eauto | set_solver].
      * apply bool_decide_eq_false in E. split; [set_solver |].
        intros (u' & [= <-] & H). done.
    + cbn. split; [set_solver |]. by intros (u' & [=] & _).
Qed.

(** * Timestamps *)

Section LocalTimeFacts.

Lemma rev_app_app s t acc :
  String.rev_app (s +:+ t) acc = String.rev_app t (String.rev_app s acc).
Proof.
  revert acc. induction s as [| c s IH]; intros acc; [done |].
  cbn. apply IH.
Qed.

Lemma endsWith_appended s : endsWith "Z" (s +:+ "Z") = true.
Proof.
  unfold endsWith, String.rev. rewrite rev_app_app. cbn.
  by destruct (String.rev_app s "").
Qed.

Lemma truthy_appended s : JS.truthy_string (s +:+ "Z") = true.
Proof. by destruct s. Qed.

End LocalTimeFacts.

(** X20: [formatLocalTime] shows the dash for a missing or empty timestamp;
    a timestamp with neither a trailing [Z] nor a [+] is formatted exactly
    like the same timestamp with [Z] appended, that is, read as UTC; and
    the string handed to [Date] is never marked twice. *)
Theorem formatLocalTime_reads_utc (toLocaleString : string -> string) s :
  LocalTime.formatLocalTime toLocaleString None = "—"
  /\ LocalTime.formatLocalTime toLocaleString (Some "") = "—"
  /\ (s <> "" -> endsWith "Z" s = false -> LocalTime.includes "+" s = false ->
      LocalTime.formatLocalTime toLocaleString (Some s)
      = LocalTime.formatLocalTime toLocaleString (Some (s +:+ "Z")))
  /\ LocalTime.dateStr (LocalTime.dateStr s) = LocalTime.dateStr s.
Proof.
  split_and!; try done.
  - intros Hne He Hi. unfold LocalTime.formatLocalTime, LocalTime.dateStr.
    rewrite truthy_appended, endsWith_appended, He, Hi. cbn.
    by destruct s.
  - unfold LocalTime.dateStr.
    destruct (endsWith "Z" s || LocalTime.includes "+" s) eqn:E.
    + by rewrite E.
    + by rewrite endsWith_appended.
Qed.
